(** * Weather_Station.py: Ecowitt gateway to Wunderground uploader

    A shallow embedding of [src/Astro/Weather_Station.py] and the
    properties of its collection / enrichment / upload cycle.

    Python objects are modelled by [pyval]; dictionaries are finite maps
    with string keys.  The three effects of the program (HTTP requests made
    through [requests.get], reading the clock with [datetime.utcnow] and
    writing to the module logger) are threaded through an explicit state
    by a small state-and-exception monad [M].  The behaviour of the network
    and of the clock is supplied by a [World]. *)

From stdpp Require Import gmap strings list fin_maps pretty.
From Stdlib Require Import ZArith Lia Ascii String.

Set Warnings "-register-all,-abstract-large-number".
Open Scope Z_scope.
Open Scope string_scope.

(* ===================================================================== *)
(** ** Python values *)
(* ===================================================================== *)

(** What [response.json()] can produce, and what the program stores in its
    dictionaries and in the fields of [WeatherData].  A float is kept as the
    decimal literal [m * 10^e] it was read from: the program never computes
    with it, it only passes it on and tests it for truth. *)
Inductive pyval : Type :=
  | PNone
  | PBool (b : bool)
  | PInt (z : Z)
  | PFloat (m : Z) (e : Z)
  | PStr (s : string)
  | PList (l : list pyval)
  | PDict (d : gmap string pyval).

(** The float read from the literal [m * 10^e] is zero: the literal is
    zero, or it is so small that the correctly rounded conversion gives
    0.0, which is the case up to half the least subnormal, [2^-1075]. *)
Definition rounds_to_zero (m e : Z) : bool :=
  if (0 <=? e)%Z then (m =? 0)%Z
  else (Z.abs m * 2 ^ 1075 <=? 10 ^ (- e))%Z.

(** Python truth value testing, as used by [if not raw_data]. *)
Definition truthy (v : pyval) : bool :=
  match v with
  | PNone => false
  | PBool b => b
  | PInt z => negb (z =? 0)%Z
  | PFloat m e => negb (rounds_to_zero m e)
  | PStr s => negb (String.eqb s "")
  | PList l => match l with [] => false | _ => true end
  | PDict d => negb (bool_decide (d = ∅))
  end.

(** [x is None] *)
Definition is_None (v : pyval) : bool :=
  match v with PNone => true | _ => false end.

(* ===================================================================== *)
(** ** Exceptions *)
(* ===================================================================== *)

(** The subclasses of [requests.exceptions.RequestException] that
    [requests.get], [raise_for_status] and [response.json] raise. *)
Inductive RequestException : Type :=
  | ConnectionError
  | ReadTimeout
  | TooManyRedirects
  | HTTPError (status : Z)
  | JSONDecodeError.

(** Exceptions of other classes that the library calls can raise: by
    [requests.get] when a parameter cannot be encoded, by [response.json]
    on an integer with too many digits or on too deep a nesting, and the
    interrupt from the keyboard, which is no [Exception]. *)
Inductive builtin_exception : Type :=
  | UnicodeEncodeError
  | ValueError
  | RecursionError
  | KeyboardInterrupt.

Inductive exn : Type :=
  | Requests (e : RequestException)
  | AttributeError
  | Builtin (e : builtin_exception).

Inductive result (A : Type) : Type :=
  | Ok (a : A)
  | Raise (e : exn).
Arguments Ok {A} a.
Arguments Raise {A} e.

(* ===================================================================== *)
(** ** datetime *)
(* ===================================================================== *)

(** A naive [datetime.datetime]. *)
Record datetime : Type := mk_datetime {
  year : nat;
  month : nat;
  day : nat;
  hour : nat;
  minute : nat;
  second : nat;
  microsecond : nat
}.

(** Comparison of naive datetimes is lexicographic on the fields. *)
Definition datetime_key (d : datetime) : list nat :=
  [year d; month d; day d; hour d; minute d; second d; microsecond d].

Fixpoint lex_leb (a b : list nat) : bool :=
  match a, b with
  | [], _ => true
  | _ :: _, [] => false
  | x :: a', y :: b' =>
      if (x <? y)%nat then true
      else if (y <? x)%nat then false
      else lex_leb a' b'
  end.

Definition datetime_le (a b : datetime) : bool :=
  lex_leb (datetime_key a) (datetime_key b).

(** The ranges [datetime] enforces (the year goes up to MAXYEAR = 9999),
    with the year restricted to those written with four digits. *)
Definition valid_datetime (d : datetime) : Prop :=
  (1000 <= year d < 100 * 100)%nat /\ (1 <= month d <= 12)%nat /\
  (1 <= day d <= 31)%nat /\ (hour d <= 23)%nat /\ (minute d <= 59)%nat /\
  (second d <= 59)%nat.

Definition digit (n : nat) : ascii := ascii_of_nat (48 + n mod 10).

Definition pad2 (n : nat) : string :=
  String (digit (n / 10)) (String (digit n) "").

Definition pad4 (n : nat) : string :=
  String (digit (n / 1000)) (String (digit (n / 100)) (pad2 n)).

(** [datetime.strftime] for the directives the program uses; any other
    character of the format is copied. *)
Fixpoint strftime (d : datetime) (fmt : string) : string :=
  match fmt with
  | "" => ""
  | String "%" (String c rest) =>
      let field :=
        if Ascii.eqb c "Y" then pad4 (year d)
        else if Ascii.eqb c "m" then pad2 (month d)
        else if Ascii.eqb c "d" then pad2 (day d)
        else if Ascii.eqb c "H" then pad2 (hour d)
        else if Ascii.eqb c "M" then pad2 (minute d)
        else if Ascii.eqb c "S" then pad2 (second d)
        else String "%" (String c "")
      in field ++ strftime d rest
  | String c rest => String c (strftime d rest)
  end.

(* ===================================================================== *)
(** ** Strings: [str.lower] and [in] *)
(* ===================================================================== *)

(** [str.lower] on code points below 256: the ASCII capitals and the
    Latin-1 capitals (all of 192..222 but the multiplication sign 215)
    move up by 32. *)
Definition lower_char (c : ascii) : ascii :=
  let n := nat_of_ascii c in
  if ((65 <=? n) && (n <=? 90))%nat then ascii_of_nat (n + 32)
  else if ((192 <=? n) && (n <=? 222) && negb (n =? 215))%nat
       then ascii_of_nat (n + 32)
  else c.

Fixpoint lower (s : string) : string :=
  match s with
  | "" => ""
  | String c rest => String (lower_char c) (lower rest)
  end.

(** [needle in hay] on strings. *)
Fixpoint str_in (needle hay : string) : bool :=
  String.prefix needle hay ||
  match hay with
  | "" => false
  | String _ rest => str_in needle rest
  end.

(* ===================================================================== *)
(** ** WeatherData *)
(* ===================================================================== *)

(** The dataclass [WeatherData].  Python does not check the annotations,
    so the measurement fields hold whatever object they were given. *)
Record WeatherData : Type := mk_WeatherData {
  temperature : pyval;
  humidity : pyval;
  pressure : pyval;
  wind_speed : pyval;
  wind_direction : pyval;
  rainfall : pyval;
  cloud_coverage : pyval;
  timestamp : datetime
}.

(* ===================================================================== *)
(** ** The world, the state and the monad *)
(* ===================================================================== *)

Record Response : Type := mk_Response_raising {
  status_code : Z;
  text : string;
  (** the result of decoding [text] as JSON, [None] when that fails *)
  json : option pyval;
  (** when decoding fails with an exception other than the JSONDecodeError
      of [requests], that exception *)
  json_raises : option builtin_exception
}.

(** A response whose body, when it cannot be decoded, is malformed JSON. *)
Definition mk_Response (status_code : Z) (text : string)
  (json : option pyval) : Response :=
  mk_Response_raising status_code text json None.

(** What a GET request meets: [requests.get] raises a RequestException,
    raises an exception of another class, or returns a response. *)
Inductive http_outcome : Type :=
  | Raised (e : RequestException)
  | Threw (e : builtin_exception)
  | Responded (r : Response).

(** The environment of one run: what each GET request meets, and what the
    clock shows at each instant.  Instants are counted by the effects that
    take time (requests and clock reads). *)
Record World : Type := mk_World {
  net : string -> option (gmap string pyval) -> http_outcome;
  clock : nat -> datetime
}.

Inductive call : Type :=
  | HttpGet (url : string) (params : option (gmap string pyval)) (timeout : Z)
  | UtcNow.

Inductive level : Type := DEBUG | INFO | WARNING | ERROR.

Definition level_no (l : level) : Z :=
  match l with DEBUG => 10 | INFO => 20 | WARNING => 30 | ERROR => 40 end.

(** One constructor per logging statement of the program, carrying the
    values interpolated in its message. *)
Inductive message : Type :=
  | MsgEcowittRetrieved
  | MsgEcowittFailed (e : RequestException)
  | MsgParsed (parsed : gmap string pyval)
  | MsgParseError (e : exn)
  | MsgCloudCoverage (v : pyval)
  | MsgCloudFailed (e : RequestException)
  | MsgUploadOk
  | MsgWundergroundResponse (body : string)
  | MsgUploadFailed (e : RequestException)
  | MsgNoEcowittData
  | MsgParseFailed
  | MsgCloudDefault
  | MsgCombined (w : WeatherData).

Record state : Type := mk_state {
  tick : nat;
  calls : list call;
  log : list (level * message)
}.

(** The state after one more call, and after one more log record. *)
Definition after_call (s : state) (c : call) : state :=
  mk_state (S (tick s)) (calls s ++ [c]) (log s).

Definition after_log (s : state) (l : level) (m : message) : state :=
  mk_state (tick s) (calls s) (log s ++ [(l, m)]).

Definition M (A : Type) : Type := state -> result A * state.

#[global] Instance M_ret : MRet M := fun A a s => (Ok a, s).

#[global] Instance M_bind : MBind M := fun A B f m s =>
  match m s with
  | (Ok a, s') => f a s'
  | (Raise e, s') => (Raise e, s')
  end.

Definition raise {A : Type} (e : exn) : M A := fun s => (Raise e, s).

(** [try: body / except ...: handler].  [handler e] is [None] when no
    except clause matches [e]. *)
Definition try_except {A : Type} (body : M A) (handler : exn -> option (M A))
  : M A := fun s =>
  match body s with
  | (Ok a, s') => (Ok a, s')
  | (Raise e, s') =>
      match handler e with
      | Some h => h s'
      | None => (Raise e, s')
      end
  end.

(** [except requests.exceptions.RequestException as e] *)
Definition except_RequestException {A : Type}
  (h : RequestException -> M A) (e : exn) : option (M A) :=
  match e with
  | Requests re => Some (h re)
  | AttributeError | Builtin _ => None
  end.

(** [except Exception as e] *)
Definition except_Exception {A : Type} (h : exn -> M A) (e : exn)
  : option (M A) :=
  match e with
  | Builtin KeyboardInterrupt => None
  | _ => Some (h e)
  end.

(** The module logger; [logging.basicConfig(level=logging.INFO)] drops
    what is below INFO. *)
Definition logger (l : level) (m : message) : M unit := fun s =>
  if (level_no INFO <=? level_no l)%Z
  then (Ok tt, after_log s l m)
  else (Ok tt, s).

(** [requests.get(url, params=params, timeout=timeout)]: one call, one
    instant. *)
Definition requests_get (W : World) (url : string)
  (params : option (gmap string pyval)) (timeout : Z) : M Response := fun s =>
  let s' := after_call s (HttpGet url params timeout) in
  match net W url params with
  | Raised e => (Raise (Requests e), s')
  | Threw e => (Raise (Builtin e), s')
  | Responded r => (Ok r, s')
  end.

(** [response.raise_for_status()]: client and server error codes raise. *)
Definition raise_for_status (r : Response) : M unit :=
  if ((400 <=? status_code r) && (status_code r <? 600))%Z
  then raise (Requests (HTTPError (status_code r)))
  else mret tt.

(** [response.json()]; the decoding error of [requests] is a
    [RequestException] ([requests.exceptions.JSONDecodeError]), the other
    exceptions of the decoder are passed on as they are. *)
Definition response_json (r : Response) : M pyval :=
  match json r with
  | Some v => mret v
  | None =>
      match json_raises r with
      | Some e => raise (Builtin e)
      | None => raise (Requests JSONDecodeError)
      end
  end.

(** [datetime.utcnow()] *)
Definition utcnow (W : World) : M datetime := fun s =>
  (Ok (clock W (tick s)), after_call s UtcNow).

(** [o.get(key, default)]: only dictionaries have the method. *)
Definition py_get (o : pyval) (key : string) (dflt : pyval) : M pyval :=
  match o with
  | PDict d => mret (default dflt (d !! key))
  | _ => raise AttributeError
  end.

(* ===================================================================== *)
(** ** class EcowittWeatherStation *)
(* ===================================================================== *)

Module EcowittWeatherStation.

Record t : Type := mk {
  gateway_ip : string;
  gateway_port : Z;
  base_url : string;
  timeout : Z
}.

(** [__init__]; the caller in this program leaves the port at 8000. *)
Definition init (gateway_ip : string) (gateway_port : Z) : t :=
  {| gateway_ip := gateway_ip;
     gateway_port := gateway_port;
     base_url := "http://" ++ gateway_ip ++ ":" ++ pretty gateway_port;
     timeout := 10 |}.

(** The dictionary literal of [parse_data], keys in source order. *)
Definition parsed_dict (v_temperature v_humidity v_pressure v_wind_speed
  v_wind_direction v_rainfall : pyval) : gmap string pyval :=
  <["rainfall" := v_rainfall]>
  (<["wind_direction" := v_wind_direction]>
  (<["wind_speed" := v_wind_speed]>
  (<["pressure" := v_pressure]>
  (<["humidity" := v_humidity]>
  (<["temperature" := v_temperature]> ∅))))).

Definition get_local_data (W : World) (self : t) : M pyval :=
  try_except
    (response ← requests_get W (base_url self ++ "/get_stations") None
                             (timeout self);
     raise_for_status response;;
     data ← response_json response;
     logger INFO MsgEcowittRetrieved;;
     mret data)
    (except_RequestException (fun e =>
       logger ERROR (MsgEcowittFailed e);;
       mret PNone)).

Definition parse_data (self : t) (raw_data : pyval) : M pyval :=
  try_except
    (outdoor ← py_get raw_data "outdoor" (PDict ∅);
     v_temperature ← py_get outdoor "temperature" PNone;
     outdoor ← py_get raw_data "outdoor" (PDict ∅);
     v_humidity ← py_get outdoor "humidity" PNone;
     v_pressure ← py_get raw_data "pressure" PNone;
     wind ← py_get raw_data "wind" (PDict ∅);
     v_wind_speed ← py_get wind "windspeed" PNone;
     wind ← py_get raw_data "wind" (PDict ∅);
     v_wind_direction ← py_get wind "winddir" PNone;
     rain ← py_get raw_data "rain" (PDict ∅);
     v_rainfall ← py_get rain "rainevent" PNone;
     let parsed :=
       parsed_dict v_temperature v_humidity v_pressure v_wind_speed
                   v_wind_direction v_rainfall in
     logger DEBUG (MsgParsed parsed);;
     mret (PDict parsed))
    (except_Exception (fun e =>
       logger ERROR (MsgParseError e);;
       mret PNone)).

End EcowittWeatherStation.

(* ===================================================================== *)
(** ** class CloudCoverageProvider *)
(* ===================================================================== *)

Module CloudCoverageProvider.

Record t : Type := mk {
  api_key : string;
  latitude : pyval;
  longitude : pyval;
  base_url : string;
  timeout : Z
}.

Definition init (api_key : string) (latitude longitude : pyval) : t :=
  {| api_key := api_key;
     latitude := latitude;
     longitude := longitude;
     base_url := "https://api.openweathermap.org/data/2.5/weather";
     timeout := 10 |}.

(** The [params] dictionary of [get_cloud_coverage]. *)
Definition request_params (self : t) : gmap string pyval :=
  <["appid" := PStr (api_key self)]>
  (<["lon" := longitude self]>
  (<["lat" := latitude self]> ∅)).

Definition get_cloud_coverage (W : World) (self : t) : M pyval :=
  try_except
    (let params := request_params self in
     response ← requests_get W (base_url self) (Some params) (timeout self);
     raise_for_status response;;
     data ← response_json response;
     clouds ← py_get data "clouds" (PDict ∅);
     cloud_coverage ← py_get clouds "all" (PInt 0);
     logger INFO (MsgCloudCoverage cloud_coverage);;
     mret cloud_coverage)
    (except_RequestException (fun e =>
       logger ERROR (MsgCloudFailed e);;
       mret PNone)).

End CloudCoverageProvider.

(* ===================================================================== *)
(** ** class WundergroundUploader *)
(* ===================================================================== *)

Module WundergroundUploader.

Record t : Type := mk {
  station_id : string;
  station_key : string;
  upload_url : string;
  timeout : Z
}.

Definition init (station_id station_key : string) : t :=
  {| station_id := station_id;
     station_key := station_key;
     upload_url := "https://weatherstation.wunderground.com/weatherstation/updateweatherstation.php";
     timeout := 10 |}.

(** The [params] dictionary built at the head of [upload_data]. *)
Definition upload_params (self : t) (weather_data : WeatherData)
  : gmap string pyval :=
  <["rtfreq" := PInt 2880]>
  (<["realtime" := PInt 1]>
  (<["action" := PStr "updateraw"]>
  (<["clouds" := cloud_coverage weather_data]>
  (<["rainin" := rainfall weather_data]>
  (<["winddir" := wind_direction weather_data]>
  (<["windspeedmph" := wind_speed weather_data]>
  (<["baromin" := pressure weather_data]>
  (<["humidity" := humidity weather_data]>
  (<["tempf" := temperature weather_data]>
  (<["dateutc" :=
       PStr (strftime (timestamp weather_data) "%Y-%m-%d %H:%M:%S")]>
  (<["PASSWORD" := PStr (station_key self)]>
  (<["ID" := PStr (station_id self)]> ∅)))))))))))).

Definition upload_data (W : World) (self : t) (weather_data : WeatherData)
  : M bool :=
  try_except
    (let params := upload_params self weather_data in
     response ← requests_get W (upload_url self) (Some params)
                             (timeout self);
     raise_for_status response;;
     if str_in "success" (lower (text response))
     then logger INFO MsgUploadOk;; mret true
     else logger WARNING (MsgWundergroundResponse (text response));;
          mret false)
    (except_RequestException (fun e =>
       logger ERROR (MsgUploadFailed e);;
       mret false)).

End WundergroundUploader.

(* ===================================================================== *)
(** ** class WeatherStationManager *)
(* ===================================================================== *)

Module WeatherStationManager.

Record t : Type := mk {
  ecowitt : EcowittWeatherStation.t;
  cloud_provider : CloudCoverageProvider.t;
  uploader : WundergroundUploader.t
}.

Definition init (ecowitt_ip owm_api_key : string)
  (station_latitude station_longitude : pyval)
  (wunderground_station_id wunderground_api_key : string) : t :=
  {| ecowitt := EcowittWeatherStation.init ecowitt_ip 8000;
     cloud_provider :=
       CloudCoverageProvider.init owm_api_key station_latitude
                                  station_longitude;
     uploader :=
       WundergroundUploader.init wunderground_station_id
                                 wunderground_api_key |}.

Definition collect_and_upload (W : World) (self : t) : M bool :=
  raw_data ← EcowittWeatherStation.get_local_data W (ecowitt self);
  if negb (truthy raw_data)
  then logger ERROR MsgNoEcowittData;; mret false
  else
  ecowitt_data ← EcowittWeatherStation.parse_data (ecowitt self) raw_data;
  if negb (truthy ecowitt_data)
  then logger ERROR MsgParseFailed;; mret false
  else
  cloud_coverage ← CloudCoverageProvider.get_cloud_coverage W
                     (cloud_provider self);
  cloud_coverage ← (if is_None cloud_coverage
                    then logger WARNING MsgCloudDefault;; mret (PInt 0)
                    else mret cloud_coverage);
  v_temperature ← py_get ecowitt_data "temperature" (PInt 0);
  v_humidity ← py_get ecowitt_data "humidity" (PInt 0);
  v_pressure ← py_get ecowitt_data "pressure" (PInt 0);
  v_wind_speed ← py_get ecowitt_data "wind_speed" (PInt 0);
  v_wind_direction ← py_get ecowitt_data "wind_direction" (PInt 0);
  v_rainfall ← py_get ecowitt_data "rainfall" (PInt 0);
  now ← utcnow W;
  let weather_data :=
    {| temperature := v_temperature;
       humidity := v_humidity;
       pressure := v_pressure;
       wind_speed := v_wind_speed;
       wind_direction := v_wind_direction;
       rainfall := v_rainfall;
       cloud_coverage := cloud_coverage;
       timestamp := now |} in
  logger INFO (MsgCombined weather_data);;
  WundergroundUploader.upload_data W (uploader self) weather_data.

End WeatherStationManager.

Import EcowittWeatherStation CloudCoverageProvider WundergroundUploader
       WeatherStationManager.

(* ===================================================================== *)
(** ** Derived definitions used to state the properties *)
(* ===================================================================== *)

(** What a fetch that decodes JSON obtains from the outcome of its request:
    the RequestException that its [except] clause receives, the exception
    of another class that escapes it, or the decoded value. *)
Inductive fetched : Type :=
  | FetchFailed (e : RequestException)
  | FetchCrashed (e : builtin_exception)
  | Fetched (v : pyval).

Definition fetch_json (o : http_outcome) : fetched :=
  match o with
  | Raised e => FetchFailed e
  | Threw e => FetchCrashed e
  | Responded r =>
      if ((400 <=? status_code r) && (status_code r <? 600))%Z
      then FetchFailed (HTTPError (status_code r))
      else match json r with
           | Some v => Fetched v
           | None =>
               match json_raises r with
               | Some e => FetchCrashed e
               | None => FetchFailed JSONDecodeError
               end
           end
  end.

Definition gateway_call (self : EcowittWeatherStation.t) : call :=
  HttpGet (EcowittWeatherStation.base_url self ++ "/get_stations") None
          (EcowittWeatherStation.timeout self).

Definition gateway_outcome (W : World) (self : EcowittWeatherStation.t)
  : http_outcome :=
  net W (EcowittWeatherStation.base_url self ++ "/get_stations") None.

(** The dictionary under key [k] of [d], as [d.get(k, {})] followed by a
    [.get] sees it: [None] when the entry is there but has no [get]. *)
Definition block (d : gmap string pyval) (k : string)
  : option (gmap string pyval) :=
  match default (PDict ∅) (d !! k) with
  | PDict b => Some b
  | _ => None
  end.

(** The dictionary [parse_data] builds, when none of its lookups raises. *)
Definition parse_fields (raw : pyval) : option (gmap string pyval) :=
  match raw with
  | PDict d =>
      match block d "outdoor", block d "wind", block d "rain" with
      | Some o, Some w, Some r =>
          Some (parsed_dict (default PNone (o !! "temperature"))
                            (default PNone (o !! "humidity"))
                            (default PNone (d !! "pressure"))
                            (default PNone (w !! "windspeed"))
                            (default PNone (w !! "winddir"))
                            (default PNone (r !! "rainevent")))
      | _, _, _ => None
      end
  | _ => None
  end.

(** The value [get_cloud_coverage] reads from decoded [data], [None] when
    a lookup raises. *)
Definition clouds_all (data : pyval) : option pyval :=
  match data with
  | PDict d =>
      match block d "clouds" with
      | Some c => Some (default (PInt 0) (c !! "all"))
      | None => None
      end
  | _ => None
  end.

Definition owm_call (self : CloudCoverageProvider.t) : call :=
  HttpGet (CloudCoverageProvider.base_url self) (Some (request_params self))
          (CloudCoverageProvider.timeout self).

Definition owm_outcome (W : World) (self : CloudCoverageProvider.t)
  : http_outcome :=
  net W (CloudCoverageProvider.base_url self) (Some (request_params self)).

Definition upload_call (self : WundergroundUploader.t) (wd : WeatherData)
  : call :=
  HttpGet (upload_url self) (Some (upload_params self wd))
          (WundergroundUploader.timeout self).

Definition upload_outcome (W : World) (self : WundergroundUploader.t)
  (wd : WeatherData) : http_outcome :=
  net W (upload_url self) (Some (upload_params self wd)).

(** The [WeatherData] that [collect_and_upload] builds from the parsed
    dictionary, the result of the enrichment and the clock. *)
Definition reading (parsed : gmap string pyval) (cc : pyval) (now : datetime)
  : WeatherData :=
  {| temperature := default (PInt 0) (parsed !! "temperature");
     humidity := default (PInt 0) (parsed !! "humidity");
     pressure := default (PInt 0) (parsed !! "pressure");
     wind_speed := default (PInt 0) (parsed !! "wind_speed");
     wind_direction := default (PInt 0) (parsed !! "wind_direction");
     rainfall := default (PInt 0) (parsed !! "rainfall");
     cloud_coverage := if is_None cc then PInt 0 else cc;
     timestamp := now |}.

(** The state in which the clock is read: after the warning, if any. *)
Definition before_utcnow (s : state) (cc : pyval) : state :=
  if is_None cc then after_log s WARNING MsgCloudDefault else s.

(** The second half of the cycle, from the enrichment on. *)
Definition enrich_and_upload (W : World) (self : WeatherStationManager.t)
  (parsed : gmap string pyval) (s : state) : result bool * state :=
  match get_cloud_coverage W (cloud_provider self) s with
  | (Raise e, s2) => (Raise e, s2)
  | (Ok cc, s2) =>
      let s3 := before_utcnow s2 cc in
      let wd := reading parsed cc (clock W (tick s3)) in
      upload_data W (uploader self) wd
        (after_log (after_call s3 UtcNow) INFO (MsgCombined wd))
  end.



(** What [upload_data] hands to its caller on what its request meets. *)
Definition upload_result (o : http_outcome) : result bool :=
  match o with
  | Raised _ => Ok false
  | Threw e => Raise (Builtin e)
  | Responded r =>
      if ((400 <=? status_code r) && (status_code r <? 600))%Z
      then Ok false
      else Ok (str_in "success" (lower (text r)))
  end.




(** A request that [requests] reports as failed: an exception raised by
    [requests.get], or a status that [raise_for_status] rejects. *)
Definition request_fails (o : http_outcome) : bool :=
  match o with
  | Raised _ => true
  | Threw _ => false
  | Responded r => ((400 <=? status_code r) && (status_code r <? 600))%Z
  end.

(** A transport failure in the words of the specification: connection
    refused, timeout, or any status outside 200..299. *)
Definition spec_transport_failure (o : http_outcome) : bool :=
  match o with
  | Raised _ | Threw _ => true
  | Responded r => negb ((200 <=? status_code r) && (status_code r <? 300))%Z
  end.

(** An integer percentage, 0 to 100. *)
Definition percentage (v : pyval) : bool :=
  match v with
  | PInt n => ((0 <=? n) && (n <=? 100))%Z
  | _ => false
  end.

(** The clock does not run backwards. *)
Definition clock_monotone (W : World) : Prop :=
  forall i j : nat, (i <= j)%nat -> datetime_le (clock W i) (clock W j) = true.

(** A cycle started in [s] gets as far as building its [WeatherData]: the
    gateway gave a truthy payload, [parse_data] gave a truthy dictionary
    and [get_cloud_coverage] returned [cc], leaving the state [s3]. *)
Inductive reaches_aggregation (W : World) (self : WeatherStationManager.t)
  (s : state) (parsed : pyval) (cc : pyval) (s3 : state) : Prop :=
  | mk_reaches (raw : pyval) (s1 s2 : state)
      (Hfetch : get_local_data W (ecowitt self) s = (Ok raw, s1))
      (Hraw : truthy raw = true)
      (Hparse : parse_data (ecowitt self) raw s1 = (Ok parsed, s2))
      (Hparsed : truthy parsed = true)
      (Hcloud : get_cloud_coverage W (cloud_provider self) s2 = (Ok cc, s3)).

(** Reading a decimal numeral. *)
Definition digit_value (c : ascii) : nat := nat_of_ascii c - 48.

Fixpoint decimal_value_from (acc : nat) (s : string) : nat :=
  match s with
  | "" => acc
  | String c rest => decimal_value_from (10 * acc + digit_value c) rest
  end.

Definition decimal_value (s : string) : nat := decimal_value_from 0 s.

Definition is_digit (c : ascii) : bool :=
  ((48 <=? nat_of_ascii c) && (nat_of_ascii c <=? 57))%nat.

Fixpoint all_digits (s : string) : bool :=
  match s with
  | "" => true
  | String c rest => is_digit c && all_digits rest
  end.

(** [s] is the decimal numeral of [n], written with [width] digits. *)
Definition numeral (width n : nat) (s : string) : Prop :=
  String.length s = width /\ all_digits s = true /\ decimal_value s = n.

(** [s] has the form YYYY-MM-DD HH:MM:SS and shows the fields of [d]. *)
Definition dateutc_format (d : datetime) (s : string) : Prop :=
  exists Y Mo D H Mi S,
    s = Y ++ "-" ++ Mo ++ "-" ++ D ++ " " ++ H ++ ":" ++ Mi ++ ":" ++ S /\
    numeral 4 (year d) Y /\ numeral 2 (month d) Mo /\ numeral 2 (day d) D /\
    numeral 2 (hour d) H /\ numeral 2 (minute d) Mi /\
    numeral 2 (second d) S.

(** The names of the parameters the upload target expects. *)
Definition wunderground_fields : gset string :=
  {[ "ID"; "PASSWORD"; "dateutc"; "tempf"; "humidity"; "baromin";
     "windspeedmph"; "winddir"; "rainin"; "clouds"; "action"; "realtime";
     "rtfreq" ]}.

(** The calls made and the records logged between two states of a run. *)
Definition calls_since (s s' : state) : list call :=
  drop (List.length (calls s)) (calls s').

Definition log_since (s s' : state) : list (level * message) :=
  drop (List.length (log s)) (log s').

(** *** A concrete installation, for the examples *)

Definition station : WeatherStationManager.t :=
  WeatherStationManager.init "192.168.68.99" "owm-key"
    (PFloat 39475052635243614 (-15)) (PFloat (-105066193642513) (-12))
    "KCOLITTL1240" "station-key".

Definition gateway_url : string :=
  EcowittWeatherStation.base_url (ecowitt station) ++ "/get_stations".

Definition owm_url : string :=
  CloudCoverageProvider.base_url (cloud_provider station).

(** A world in which the three services answer as given and the clock
    advances by one second per instant. *)
Definition world_of (gateway owm wunderground : http_outcome) : World :=
  {| net := fun url _ =>
       if String.eqb url gateway_url then gateway
       else if String.eqb url owm_url then owm
       else wunderground;
     clock := fun n => mk_datetime 2024 1 1 0 0 n 0 |}.

Definition initial_state : state := mk_state 0 [] [].

(** JSON text needs the double quote character. *)
Definition quoted (s : string) : string :=
  String "034"%char (s ++ String "034"%char "").

(** A gateway answer that reports the pressure only. *)
Definition pressure_only : Response :=
  {| status_code := 200;
     text := "{" ++ quoted "pressure" ++ ": 29.92}";
     json := Some (PDict (<["pressure" := PFloat 2992 (-2)]> ∅));
     json_raises := None |}.

(** A gateway answer with a full set of measurements. *)
Definition full_payload : gmap string pyval :=
  <["rain" := PDict (<["rainevent" := PFloat 1 (-1)]> ∅)]>
  (<["wind" := PDict (<["winddir" := PInt 180]>
                      (<["windspeed" := PInt 5]> ∅))]>
  (<["pressure" := PFloat 2992 (-2)]>
  (<["outdoor" := PDict (<["humidity" := PInt 40]>
                         (<["temperature" := PFloat 725 (-1)]> ∅))]> ∅))).

Definition full_answer : Response :=
  {| status_code := 200;
     text := "{" ++ quoted "outdoor" ++ ": {" ++ quoted "temperature"
             ++ ": 72.5, " ++ quoted "humidity" ++ ": 40}, "
             ++ quoted "pressure" ++ ": 29.92, "
             ++ quoted "wind" ++ ": {" ++ quoted "windspeed" ++ ": 5, "
             ++ quoted "winddir" ++ ": 180}, "
             ++ quoted "rain" ++ ": {" ++ quoted "rainevent" ++ ": 0.1}}";
     json := Some (PDict full_payload);
     json_raises := None |}.

(** A gateway answer that names none of the expected fields. *)
Definition no_fields : Response :=
  {| status_code := 200;
     text := "{" ++ quoted "stations" ++ ": []}";
     json := Some (PDict (<["stations" := PList []]> ∅));
     json_raises := None |}.

(** A gateway answer with an empty object. *)
Definition empty_object : Response :=
  {| status_code := 200; text := "{}"; json := Some (PDict ∅);
     json_raises := None |}.

(** A gateway answer with status 300 and a well-formed body. *)
Definition multiple_choices : Response :=
  {| status_code := 300;
     text := "{" ++ quoted "pressure" ++ ": 29.92}";
     json := Some (PDict (<["pressure" := PFloat 2992 (-2)]> ∅));
     json_raises := None |}.

(** Enrichment answers: the given value under clouds.all. *)
Definition clouds_answer (v : pyval) (body : string) : Response :=
  {| status_code := 200;
     text := "{" ++ quoted "clouds" ++ ": {" ++ quoted "all" ++ ": "
             ++ body ++ "}}";
     json := Some (PDict (<["clouds" := PDict (<["all" := v]> ∅)]> ∅));
     json_raises := None |}.

(** Answers of the upload target. *)
Definition accepted : Response :=
  {| status_code := 200; text := "SUCCESS"; json := None;
     json_raises := None |}.


(** The reading of the specification's example. *)
Definition example_reading : WeatherData :=
  {| temperature := PFloat 725 (-1);
     humidity := PInt 40;
     pressure := PFloat 2992 (-2);
     wind_speed := PInt 5;
     wind_direction := PInt 180;
     rainfall := PFloat 1 (-1);
     cloud_coverage := PInt 25;
     timestamp := mk_datetime 2024 1 1 0 0 0 0 |}.

(* ===================================================================== *)
(** ** Further notions for the weather station *)
(* ===================================================================== *)

Definition is_dict (v : pyval) : bool :=
  match v with PDict _ => true | _ => false end.

(** The value [d.get(outer, {}).get(inner)] finds when [outer] is absent
    from [d] or is a dictionary. *)
Definition nested_get (d : gmap string pyval) (outer inner : string)
  : pyval :=
  match d !! outer with
  | Some (PDict b) => default PNone (b !! inner)
  | _ => PNone
  end.

(** The keys of the dictionary [parse_data] returns. *)
Definition parsed_keys : gset string :=
  {[ "temperature"; "humidity"; "pressure"; "wind_speed"; "wind_direction";
     "rainfall" ]}.

(** The state at instant [k] with no calls made and nothing logged. *)
Definition blank (k : nat) : state := mk_state k [] [].

(* ===================================================================== *)
(** ** main *)
(* ===================================================================== *)

(** The configuration block at the head of [main]. *)
Record Settings : Type := mk_Settings {
  ECOWITT_GATEWAY_IP : string;
  OWM_API_KEY : string;
  STATION_LATITUDE : pyval;
  STATION_LONGITUDE : pyval;
  WU_STATION_ID : string;
  WU_API_KEY : string
}.

Definition UPDATE_INTERVAL : Z := 300.

(** The records [main] itself writes. *)
Inductive main_message : Type :=
  | MsgPleaseConfigure
  | MsgStarting
  | MsgCollecting
  | MsgWaiting (seconds : Z)
  | MsgShuttingDown.

(** What a run of [main] does, in order: a record of its own, one call of
    [collect_and_upload] (with its result, the calls it made and the
    records it wrote), or a [time.sleep]. *)
Inductive main_event : Type :=
  | Logged (l : level) (m : main_message)
  | Cycle (r : result bool) (cs : list call) (records : list (level * message))
  | Sleep (seconds : Z).

(** How the [while True] loop is left: by the KeyboardInterrupt that ends
    a run, or by another exception of the cycle. *)
Inductive loop_end : Type :=
  | Interrupted
  | Escaped (e : exn).

Inductive main_exit : Type :=
  | Returned
  | Uncaught (e : exn).

Definition main_logger (l : level) (m : main_message)
  (trace : list main_event) : list main_event :=
  if (level_no INFO <=? level_no l)%Z
  then (trace ++ [Logged l m])%list
  else trace.

(** The loop of [main].  [worlds pass] is the world during pass number
    [pass]: what the services answer may change from one pass to the next.
    Ctrl+C ends the run inside a cycle, when a request of that pass raises
    KeyboardInterrupt, or between cycles once [iterations] passes are done
    (during the last sleep, or on entry when there is none).  [now] is the
    instant at which the pass starts; a sleep takes one instant.  Each
    cycle is run from the blank state of its instant, so that the trace
    holds the calls and the records of every cycle apart. *)
Fixpoint main_loop (worlds : nat -> World) (manager : WeatherStationManager.t)
  (pass iterations now : nat) (trace : list main_event)
  : loop_end * list main_event :=
  match iterations with
  | O => (Interrupted, trace)
  | S iterations' =>
      let trace := main_logger INFO MsgCollecting trace in
      match collect_and_upload (worlds pass) manager (blank now) with
      | (Raise e, s') =>
          let trace := (trace ++ [Cycle (Raise e) (calls s') (log s')])%list in
          match e with
          | Builtin KeyboardInterrupt => (Interrupted, trace)
          | _ => (Escaped e, trace)
          end
      | (Ok b, s') =>
          let trace := (trace ++ [Cycle (Ok b) (calls s') (log s')])%list in
          let trace := main_logger INFO (MsgWaiting UPDATE_INTERVAL) trace in
          let trace := (trace ++ [Sleep UPDATE_INTERVAL])%list in
          main_loop worlds manager (S pass) iterations' (S (tick s')) trace
      end
  end.

(** The manager [main] builds from its configuration. *)
Definition manager_of (cfg : Settings) : WeatherStationManager.t :=
  WeatherStationManager.init (ECOWITT_GATEWAY_IP cfg) (OWM_API_KEY cfg)
    (STATION_LATITUDE cfg) (STATION_LONGITUDE cfg) (WU_STATION_ID cfg)
    (WU_API_KEY cfg).

(** [main] in worlds that change from pass to pass. *)
Definition main_in (worlds : nat -> World) (cfg : Settings)
  (iterations : nat) : main_exit * list main_event :=
  if str_in "your_" (OWM_API_KEY cfg) || str_in "your_" (WU_STATION_ID cfg)
  then (Returned, main_logger ERROR MsgPleaseConfigure [])
  else
    let manager := manager_of cfg in
    let trace := main_logger INFO MsgStarting [] in
    match main_loop worlds manager 0 iterations 0 trace with
    | (Interrupted, trace) =>
        (Returned, main_logger INFO MsgShuttingDown trace)
    | (Escaped e, trace) => (Uncaught e, trace)
    end.

(** [main] in a world that stays the same. *)
Definition main (W : World) (cfg : Settings) (iterations : nat)
  : main_exit * list main_event :=
  main_in (fun _ => W) cfg iterations.

(** The calls made by the cycles of a run, the results of its cycles, and
    its sleeps. *)
Definition event_calls (ev : main_event) : list call :=
  match ev with Cycle _ cs _ => cs | _ => [] end.

Definition trace_calls (trace : list main_event) : list call :=
  flat_map event_calls trace.

Definition event_results (ev : main_event) : list (result bool) :=
  match ev with Cycle r _ _ => [r] | _ => [] end.

Definition trace_results (trace : list main_event) : list (result bool) :=
  flat_map event_results trace.

Definition event_sleeps (ev : main_event) : list Z :=
  match ev with Sleep seconds => [seconds] | _ => [] end.

Definition trace_sleeps (trace : list main_event) : list Z :=
  flat_map event_sleeps trace.

Definition is_request (c : call) : bool :=
  match c with HttpGet _ _ _ => true | UtcNow => false end.

(** The calls of one pass of the loop: to the gateway; then to the
    enrichment; then to the clock and to the upload target. *)
Definition pass_calls (mgr : WeatherStationManager.t) (cs : list call)
  : Prop :=
  cs = [gateway_call (ecowitt mgr)] \/
  cs = [gateway_call (ecowitt mgr); owm_call (cloud_provider mgr)] \/
  exists wd,
    cs = [gateway_call (ecowitt mgr); owm_call (cloud_provider mgr); UtcNow;
          upload_call (uploader mgr) wd].

(** The settings still hold a placeholder that [main] looks for. *)
Definition unconfigured (cfg : Settings) : Prop :=
  (exists before after, OWM_API_KEY cfg = before ++ "your_" ++ after) \/
  (exists before after, WU_STATION_ID cfg = before ++ "your_" ++ after).

(** The settings of the examples. *)
Definition settings : Settings :=
  {| ECOWITT_GATEWAY_IP := "192.168.68.99";
     OWM_API_KEY := "owm-key";
     STATION_LATITUDE := PFloat 39475052635243614 (-15);
     STATION_LONGITUDE := PFloat (-105066193642513) (-12);
     WU_STATION_ID := "KCOLITTL1240";
     WU_API_KEY := "station-key" |}.

(* ===================================================================== *)
(** * GPIO_Config_Menu.py *)
(* ===================================================================== *)

(** The form keeps one [tk.StringVar] per pin; [gpio_states] maps a pin to
    the text its variable holds.  The widgets are not modelled, only what
    they do to the variables: a radio button sets the variable of its pin to
    its value, the two buttons call [apply_config] and [reset_config]. *)
Module GPIOConfigMenu.

(** What the user is shown: a message box, or a line on standard output. *)
Inductive output : Type :=
  | ShowInfo (title message : string)
  | Print (line : string).

Inductive error : Type :=
  | KeyError (pin : Z).

Record t : Type := mk {
  gpio_states : gmap Z string;
  gpio_pins : list Z
}.

(** The pins listed in [__init__] (BCM numbering). *)
Definition BCM_pins : list Z :=
  [2; 3; 4; 5; 6; 7; 8; 9; 10; 11; 12; 13; 14; 15; 16; 17; 18; 19; 20; 21;
   22; 23; 24; 25; 26; 27]%Z.

(** [__init__]: every pin starts as "unused". *)
Definition init : t :=
  {| gpio_states :=
       foldl (fun states pin => <[pin := "unused"]> states) ∅ BCM_pins;
     gpio_pins := BCM_pins |}.

Definition newline : string := String "010"%char "".

(** The text of a list of integers, as an f-string shows it. *)
Fixpoint join_pins (pins : list Z) : string :=
  match pins with
  | [] => ""
  | [pin] => pretty pin
  | pin :: rest => pretty pin ++ ", " ++ join_pins rest
  end.

Definition repr_pins (pins : list Z) : string := "[" ++ join_pins pins ++ "]".

(** The loop of [apply_config] over the pins still to visit. *)
Fixpoint sort_pins (states : gmap Z string) (pins inputs outputs : list Z)
  : error + list Z * list Z :=
  match pins with
  | [] => inr (inputs, outputs)
  | pin :: rest =>
      match states !! pin with
      | None => inl (KeyError pin)
      | Some state =>
          if String.eqb state "input"
          then sort_pins states rest (inputs ++ [pin])%list outputs
          else if String.eqb state "output"
          then sort_pins states rest inputs (outputs ++ [pin])%list
          else sort_pins states rest inputs outputs
      end
  end.

Definition nonempty (pins : list Z) : bool :=
  match pins with [] => false | _ => true end.

Definition apply_config (self : t) : error + list output :=
  let config_text := "GPIO Configuration:" ++ newline ++ newline in
  match sort_pins (gpio_states self) (gpio_pins self) [] [] with
  | inl e => inl e
  | inr (inputs, outputs) =>
      let config_text :=
        if nonempty inputs
        then config_text ++ "Input Pins: " ++ repr_pins inputs ++ newline
        else config_text in
      let config_text :=
        if nonempty outputs
        then config_text ++ "Output Pins: " ++ repr_pins outputs ++ newline
        else config_text in
      let config_text :=
        if negb (nonempty inputs) && negb (nonempty outputs)
        then config_text ++ "No pins configured."
        else config_text in
      inr ([ShowInfo "Configuration Applied" config_text;
            Print "Configuration Applied:"]
           ++ (if nonempty inputs
               then [Print ("Input Pins: " ++ repr_pins inputs)] else [])
           ++ (if nonempty outputs
               then [Print ("Output Pins: " ++ repr_pins outputs)] else []))%list
  end.

(** The loop of [reset_config]: the variables as the loop leaves them,
    and the exception that stopped it, if any. *)
Fixpoint reset_pins (states : gmap Z string) (pins : list Z)
  : gmap Z string * option error :=
  match pins with
  | [] => (states, None)
  | pin :: rest =>
      match states !! pin with
      | None => (states, Some (KeyError pin))
      | Some _ => reset_pins (<[pin := "unused"]> states) rest
      end
  end.

Definition reset_config (self : t) : t * (error + list output) :=
  let '(states, raised) := reset_pins (gpio_states self) (gpio_pins self) in
  let self' := {| gpio_states := states; gpio_pins := gpio_pins self |} in
  match raised with
  | Some e => (self', inl e)
  | None => (self', inr [ShowInfo "Reset" "All GPIO pins reset to unused."])
  end.

(** The three radio buttons [create_gpio_row] makes for a pin. *)
Inductive choice : Type := Unused | Input | Output.

Definition choice_value (c : choice) : string :=
  match c with
  | Unused => "unused"
  | Input => "input"
  | Output => "output"
  end.

(** Clicking the radio button [c] of [pin]; only listed pins have one. *)
Definition select (pin : Z) (c : choice) (self : t) : t :=
  if bool_decide (pin ∈ gpio_pins self)
  then {| gpio_states := <[pin := choice_value c]> (gpio_states self);
          gpio_pins := gpio_pins self |}
  else self.

(** What the user does with the form. *)
Inductive action : Type :=
  | Click (pin : Z) (c : choice)
  | Apply
  | Reset.

(** The form after an action, and what the action showed or raised. *)
Definition step (self : t) (a : action) : t * (error + list output) :=
  match a with
  | Click pin c => (select pin c self, inr [])
  | Apply => (self, apply_config self)
  | Reset => reset_config self
  end.

(** The form after a sequence of actions on a fresh form. *)
Definition after (actions : list action) : t :=
  foldl (fun self a => fst (step self a)) init actions.

(** The pins in a given state, in the order of the list. *)
Definition pins_in (state : string) (self : t) : list Z :=
  filter (fun pin => gpio_states self !! pin = Some state) (gpio_pins self).

(** Every listed pin has a variable. *)
Definition well_formed (self : t) : Prop :=
  forall pin, pin ∈ gpio_pins self -> is_Some (gpio_states self !! pin).

End GPIOConfigMenu.

(* ===================================================================== *)
(** * GPIO_Blink_Light.py *)
(* ===================================================================== *)

(** The script is a sequence of calls into RPi.GPIO, [print] and
    [time.sleep]; a run is the list of those it makes, in order. *)
Module Blink.

Inductive numbering : Type := BCM | BOARD.
Inductive direction : Type := IN | OUT.
Inductive pin_level : Type := LOW | HIGH.

Inductive op : Type :=
  | Setmode (mode : numbering)
  | Setwarnings (flag : bool)
  | Setup (pin : Z) (dir : direction)
  | GpioOutput (pin : Z) (value : pin_level)
  | Cleanup
  | PrintLine (line : string)
  | SleepFor (seconds : Z).

Definition LED_PIN : Z := 5.
Definition LED_PIN2 : Z := 20.

(** The statements ahead of the [try]. *)
Definition setup_ops : list op :=
  [Setmode BCM; Setwarnings false; Setup LED_PIN OUT; Setup LED_PIN2 OUT].

Definition banner : op :=
  PrintLine "Blinking LED on GPIO07. Press Ctrl+C to stop...".

(** One pass of the [while True] loop. *)
Definition loop_body : list op :=
  [GpioOutput LED_PIN HIGH; GpioOutput LED_PIN2 HIGH; PrintLine "LED ON";
   SleepFor 1;
   GpioOutput LED_PIN LOW; GpioOutput LED_PIN2 LOW; PrintLine "LED OFF";
   SleepFor 1].

(** The [except KeyboardInterrupt] and [finally] blocks. *)
Definition handler_ops : list op :=
  [PrintLine (String "010"%char "Program stopped by user")].

Definition finally_ops : list op := [Cleanup; PrintLine "GPIO cleaned up"].

Fixpoint passes_ops (passes : nat) : list op :=
  match passes with
  | O => []
  | S n => (loop_body ++ passes_ops n)%list
  end.

(** A run in which Ctrl+C arrives in the loop after [passes] whole passes
    and [position] statements of the next one (a statement that is being
    executed, a sleep for one, counts as made). *)
Definition run (passes position : nat) : list op :=
  (setup_ops ++ [banner] ++ passes_ops passes ++ take position loop_body
   ++ handler_ops ++ finally_ops)%list.

(** The level last written to each pin. *)
Definition write (o : op) (levels : gmap Z pin_level) : gmap Z pin_level :=
  match o with
  | GpioOutput pin value => <[pin := value]> levels
  | Cleanup => ∅
  | _ => levels
  end.

(** The levels of the pins at each sleep of a run, in order. *)
Fixpoint levels_at_sleeps (ops : list op) (levels : gmap Z pin_level)
  : list (gmap Z pin_level) :=
  match ops with
  | [] => []
  | SleepFor _ :: rest => levels :: levels_at_sleeps rest levels
  | o :: rest => levels_at_sleeps rest (write o levels)
  end.

(** The lines printed by a run, and the lengths of its sleeps. *)
Definition op_line (o : op) : list string :=
  match o with PrintLine line => [line] | _ => [] end.

Definition printed (ops : list op) : list string := flat_map op_line ops.

Definition op_sleep (o : op) : list Z :=
  match o with SleepFor seconds => [seconds] | _ => [] end.

Definition sleeps (ops : list op) : list Z := flat_map op_sleep ops.

(** Both LEDs have been written and stand at the same level. *)
Definition leds_agree (levels : gmap Z pin_level) : Prop :=
  is_Some (levels !! LED_PIN) /\
  levels !! LED_PIN = levels !! LED_PIN2.

(** A call that drives a pin, and the pin it drives. *)
Definition written_pin (o : op) : list Z :=
  match o with GpioOutput pin _ => [pin] | _ => [] end.

Definition is_gpio (o : op) : bool :=
  match o with
  | Setmode _ | Setwarnings _ | Setup _ _ | GpioOutput _ _ | Cleanup => true
  | PrintLine _ | SleepFor _ => false
  end.

Definition is_cleanup (o : op) : bool :=
  match o with Cleanup => true | _ => false end.

Definition gpio_calls (ops : list op) : list op :=
  filter (fun o => is_gpio o = true) ops.

Fixpoint on_off (passes : nat) : list string :=
  match passes with
  | O => []
  | S n => "LED ON" :: "LED OFF" :: on_off n
  end.

End Blink.

(* ===================================================================== *)
(** * Properties *)
(* ===================================================================== *)

(** ** Strings *)

Lemma append_cons (c : ascii) (p rest : string) :
  String c p ++ rest = String c (p ++ rest).
Proof. reflexivity. Qed.

Lemma prefix_app (p s : string) :
  String.prefix p s = true <-> exists rest, s = p ++ rest.
Proof.
  revert s; induction p as [|c p IH]; intros s; simpl.
  - split; [intros _; exists s; reflexivity | intros _; destruct s; reflexivity].
  - destruct s as [|c' s]; simpl.
    + split; [discriminate | intros [rest H]; discriminate].
    + setoid_rewrite append_cons.
      destruct (ascii_dec c c') as [->|Hne].
      * rewrite IH. split; intros [rest H]; exists rest; congruence.
      * split; [discriminate | intros [rest H]; congruence].
Qed.

Lemma str_in_nil (needle : string) :
  str_in needle "" = String.prefix needle "" || false.
Proof. reflexivity. Qed.

Lemma str_in_cons (needle : string) (c : ascii) (hay : string) :
  str_in needle (String c hay) =
  String.prefix needle (String c hay) || str_in needle hay.
Proof. reflexivity. Qed.

(** [str_in needle hay] holds exactly when [needle] occurs in [hay]. *)
Lemma str_in_spec (needle hay : string) :
  str_in needle hay = true <->
  exists before after, hay = before ++ needle ++ after.
Proof.
  induction hay as [|c hay IH].
  - rewrite str_in_nil, orb_false_r, prefix_app. split.
    + intros [rest H]. exists "", rest. exact H.
    + intros [[|b before] [after H]]; [exists after; exact H | discriminate].
  - rewrite str_in_cons, orb_true_iff, prefix_app, IH. split.
    + intros [[rest H] | (before & after & H)].
      * exists "", rest. exact H.
      * exists (String c before), after. rewrite append_cons. congruence.
    + intros ([|b before] & after & H).
      * left. exists after. exact H.
      * right. exists before, after. rewrite append_cons in H. congruence.
Qed.




(** ** The operations, one equation each *)

Arguments parsed_dict : simpl never.
Arguments request_params : simpl never.
Arguments upload_params : simpl never.

Lemma get_local_data_run W self s :
  get_local_data W self s =
  match fetch_json (gateway_outcome W self) with
  | FetchFailed e =>
      (Ok PNone,
       after_log (after_call s (gateway_call self)) ERROR (MsgEcowittFailed e))
  | FetchCrashed e => (Raise (Builtin e), after_call s (gateway_call self))
  | Fetched v =>
      (Ok v,
       after_log (after_call s (gateway_call self)) INFO MsgEcowittRetrieved)
  end.
Proof.
  unfold get_local_data, gateway_outcome, gateway_call, fetch_json,
    try_except, requests_get, raise_for_status, response_json.
  unfold mbind, M_bind.
  destruct (net W _ None) as [e|e|r]; simpl; [reflexivity|reflexivity|].
  destruct ((400 <=? status_code r) && (status_code r <? 600))%Z; simpl;
    [reflexivity|].
  destruct (json r); [reflexivity|].
  destruct (json_raises r); reflexivity.
Qed.

Lemma parse_data_run self raw s :
  parse_data self raw s =
  match parse_fields raw with
  | Some parsed => (Ok (PDict parsed), s)
  | None => (Ok PNone, after_log s ERROR (MsgParseError AttributeError))
  end.
Proof.
  unfold parse_data, parse_fields, block, try_except, except_Exception.
  unfold mbind, M_bind.
  destruct raw as [| | | | | |d]; try reflexivity.
  cbn [py_get mret M_ret].
  destruct (default (PDict ∅) (d !! "outdoor")); try reflexivity.
  cbn [py_get mret M_ret].
  destruct (default (PDict ∅) (d !! "wind")); try reflexivity.
  cbn [py_get mret M_ret].
  destruct (default (PDict ∅) (d !! "rain")); reflexivity.
Qed.

Lemma parsed_dict_truthy t h p ws wd r :
  truthy (PDict (parsed_dict t h p ws wd r)) = true.
Proof.
  unfold truthy, parsed_dict. rewrite bool_decide_eq_false_2; [reflexivity|].
  apply insert_non_empty.
Qed.

Lemma parse_fields_truthy raw parsed :
  parse_fields raw = Some parsed -> truthy (PDict parsed) = true.
Proof.
  unfold parse_fields. intros H.
  destruct raw as [| | | | | |d]; try discriminate.
  destruct (block d "outdoor"), (block d "wind"), (block d "rain");
    try discriminate.
  injection H as <-. apply parsed_dict_truthy.
Qed.

Lemma get_cloud_coverage_run W self s :
  get_cloud_coverage W self s =
  match fetch_json (owm_outcome W self) with
  | FetchFailed e =>
      (Ok PNone,
       after_log (after_call s (owm_call self)) ERROR (MsgCloudFailed e))
  | FetchCrashed e => (Raise (Builtin e), after_call s (owm_call self))
  | Fetched data =>
      match clouds_all data with
      | Some v => (Ok v,
                   after_log (after_call s (owm_call self)) INFO
                             (MsgCloudCoverage v))
      | None => (Raise AttributeError, after_call s (owm_call self))
      end
  end.
Proof.
  unfold get_cloud_coverage, owm_outcome, owm_call, fetch_json, clouds_all,
    block, try_except, requests_get, raise_for_status, response_json.
  unfold mbind, M_bind.
  destruct (net W _ _) as [e|e|r]; simpl; [reflexivity|reflexivity|].
  destruct ((400 <=? status_code r) && (status_code r <? 600))%Z; simpl;
    [reflexivity|].
  destruct (json r) as [data|]; [|destruct (json_raises r); reflexivity].
  destruct data as [| | | | | |d]; try reflexivity.
  cbn [mret M_ret py_get].
  destruct (default (PDict ∅) (d !! "clouds")); reflexivity.
Qed.

Lemma upload_data_run W self wd s :
  upload_data W self wd s =
  let s1 := after_call s (upload_call self wd) in
  match upload_outcome W self wd with
  | Raised e => (Ok false, after_log s1 ERROR (MsgUploadFailed e))
  | Threw e => (Raise (Builtin e), s1)
  | Responded r =>
      if ((400 <=? status_code r) && (status_code r <? 600))%Z
      then (Ok false,
            after_log s1 ERROR (MsgUploadFailed (HTTPError (status_code r))))
      else if str_in "success" (lower (text r))
      then (Ok true, after_log s1 INFO MsgUploadOk)
      else (Ok false,
            after_log s1 WARNING (MsgWundergroundResponse (text r)))
  end.
Proof.
  unfold upload_data, upload_outcome, upload_call, try_except, requests_get,
    raise_for_status.
  unfold mbind, M_bind.
  destruct (net W _ _) as [e|e|r]; simpl; [reflexivity|reflexivity|].
  destruct ((400 <=? status_code r) && (status_code r <? 600))%Z; simpl;
    [reflexivity|].
  destruct (str_in "success" (lower (text r))); reflexivity.
Qed.

Lemma collect_and_upload_run W self s :
  collect_and_upload W self s =
  match get_local_data W (ecowitt self) s with
  | (Raise e, s1) => (Raise e, s1)
  | (Ok raw, s1) =>
      if truthy raw then
        match parse_fields raw with
        | None =>
            (Ok false,
             after_log (after_log s1 ERROR (MsgParseError AttributeError))
                       ERROR MsgParseFailed)
        | Some parsed => enrich_and_upload W self parsed s1
        end
      else (Ok false, after_log s1 ERROR MsgNoEcowittData)
  end.
Proof.
  unfold collect_and_upload, enrich_and_upload.
  unfold mbind at 1. unfold M_bind at 1.
  destruct (get_local_data W (ecowitt self) s) as [[raw|e] s1];
    [|reflexivity].
  destruct (truthy raw); [|reflexivity].
  cbn [negb]. unfold mbind at 1. unfold M_bind at 1.
  rewrite parse_data_run.
  destruct (parse_fields raw) as [parsed|] eqn:Hp; [|reflexivity].
  rewrite (parse_fields_truthy _ _ Hp). cbn [negb].
  unfold mbind at 1. unfold M_bind at 1.
  destruct (get_cloud_coverage W (cloud_provider self) s1) as [[cc|e] s2];
    [|reflexivity].
  unfold before_utcnow, reading.
  destruct (is_None cc); reflexivity.
Qed.


(** ** Calls made and instants used by each operation *)

Lemma get_local_data_effects W self s r s1 :
  get_local_data W self s = (r, s1) ->
  calls s1 = (calls s ++ [gateway_call self])%list /\ tick s1 = S (tick s).
Proof.
  rewrite get_local_data_run. intros H.
  destruct (fetch_json (gateway_outcome W self));
    injection H as <- <-; auto.
Qed.

Lemma get_cloud_coverage_effects W self s r s1 :
  get_cloud_coverage W self s = (r, s1) ->
  calls s1 = (calls s ++ [owm_call self])%list /\ tick s1 = S (tick s).
Proof.
  rewrite get_cloud_coverage_run. intros H.
  destruct (fetch_json (owm_outcome W self)) as [e|e|data];
    [| |destruct (clouds_all data)];
    injection H as <- <-; auto.
Qed.

(** An upload makes its one call and adds at most one record, none of
    which is a record of the cycle itself. *)
Lemma upload_data_effects W self wd s :
  exists r s1 l,
    upload_data W self wd s = (r, s1) /\
    calls s1 = (calls s ++ [upload_call self wd])%list /\
    tick s1 = S (tick s) /\
    log s1 = (log s ++ l)%list /\
    ~ In (ERROR, MsgParseFailed) l.
Proof.
  rewrite upload_data_run. cbv zeta.
  destruct (upload_outcome W self wd) as [e|e|r];
    [| |destruct ((400 <=? status_code r) && (status_code r <? 600))%Z;
        [|destruct (str_in "success" (lower (text r)))]];
    try (eexists _, _, [_]; repeat (split; [reflexivity|]);
         intros [H|[]]; discriminate).
  eexists _, _, []. split; [reflexivity|]. split; [reflexivity|].
  split; [reflexivity|]. split; [symmetry; apply app_nil_r | intros []].
Qed.

Lemma parse_data_truthy_inv self raw s v s2 :
  parse_data self raw s = (Ok v, s2) -> truthy v = true ->
  exists parsed, v = PDict parsed /\ s2 = s /\ parse_fields raw = Some parsed.
Proof.
  rewrite parse_data_run. intros H Hv.
  destruct (parse_fields raw) as [parsed|]; injection H as <- <-.
  - eauto.
  - discriminate.
Qed.

Lemma parse_data_None_inv self raw s s2 :
  parse_data self raw s = (Ok PNone, s2) ->
  parse_fields raw = None /\
  s2 = after_log s ERROR (MsgParseError AttributeError).
Proof.
  rewrite parse_data_run. intros H.
  destruct (parse_fields raw) as [parsed|]; [discriminate|].
  injection H as <-. auto.
Qed.

(** A cycle stops after the gateway request when the payload is falsy. *)
Lemma cycle_stops_on_falsy W self s raw s1 :
  get_local_data W (ecowitt self) s = (Ok raw, s1) ->
  truthy raw = false ->
  collect_and_upload W self s =
    (Ok false, after_log s1 ERROR MsgNoEcowittData) /\
  calls (after_log s1 ERROR MsgNoEcowittData) =
    (calls s ++ [gateway_call (ecowitt self)])%list.
Proof.
  intros Hget Hraw.
  rewrite collect_and_upload_run, Hget, Hraw. split; [reflexivity|].
  exact (proj1 (get_local_data_effects _ _ _ _ _ Hget)).
Qed.

(** A cycle that reaches the aggregation continues with one clock read and
    the upload of the reading built from the parsed dictionary. *)
Lemma cycle_aggregates W self s parsed cc s3 :
  reaches_aggregation W self s parsed cc s3 ->
  exists d, parsed = PDict d /\
    let s4 := before_utcnow s3 cc in
    let wd := reading d cc (clock W (tick s4)) in
    collect_and_upload W self s =
      upload_data W (uploader self) wd
        (after_log (after_call s4 UtcNow) INFO (MsgCombined wd)) /\
    calls s4 =
      (calls s ++ [gateway_call (ecowitt self);
                  owm_call (cloud_provider self)])%list /\
    tick s4 = (tick s + 2)%nat.
Proof.
  intros [raw s1 s2 Hfetch Hraw Hparse Hparsed Hcloud].
  destruct (parse_data_truthy_inv _ _ _ _ _ Hparse Hparsed)
    as (d & -> & -> & Hfields).
  exists d. split; [reflexivity|]. cbv zeta.
  rewrite collect_and_upload_run, Hfetch, Hraw, Hfields.
  unfold enrich_and_upload. rewrite Hcloud.
  split; [reflexivity|].
  destruct (get_local_data_effects _ _ _ _ _ Hfetch) as [Hc1 Ht1].
  destruct (get_cloud_coverage_effects _ _ _ _ _ Hcloud) as [Hc3 Ht3].
  unfold before_utcnow.
  destruct (is_None cc); simpl; rewrite Hc3, Ht3, Hc1, Ht1, <- app_assoc;
    split; try reflexivity; lia.
Qed.

(** ** The cycle when the gateway gives nothing usable *)

(** C4.  When the local station fetch returns None, the cycle returns False
    after logging "Failed to get Ecowitt data", and the only request made
    during the cycle is the one to the gateway: neither the enrichment
    fetch nor the upload is invoked. *)
Theorem C4_no_local_data_no_remote_calls W self s s1 :
  get_local_data W (ecowitt self) s = (Ok PNone, s1) ->
  exists s',
    collect_and_upload W self s = (Ok false, s') /\
    log s' = (log s1 ++ [(ERROR, MsgNoEcowittData)])%list /\
    calls s' = (calls s ++ [gateway_call (ecowitt self)])%list /\
    gateway_call (ecowitt self) <> owm_call (cloud_provider self) /\
    forall wd, gateway_call (ecowitt self) <> upload_call (uploader self) wd.
Proof.
  intros Hget.
  destruct (cycle_stops_on_falsy W self s PNone s1 Hget eq_refl) as [Hrun Hc].
  exists (after_log s1 ERROR MsgNoEcowittData).
  repeat split; try assumption.
  - unfold owm_call, gateway_call. discriminate.
  - unfold upload_call, gateway_call. discriminate.
Qed.

(** C4 on the station: the gateway refuses the connection. *)
Lemma C4_witness :
  exists s',
    collect_and_upload (world_of (Raised ConnectionError) (Raised ReadTimeout)
                                 (Raised ReadTimeout)) station initial_state
      = (Ok false, s') /\
    calls s' = [gateway_call (ecowitt station)].
Proof.
  destruct (C4_no_local_data_no_remote_calls
              (world_of (Raised ConnectionError) (Raised ReadTimeout)
                        (Raised ReadTimeout))
              station initial_state
              (after_log (after_call initial_state
                            (gateway_call (ecowitt station)))
                         ERROR (MsgEcowittFailed ConnectionError))
              eq_refl) as (s' & Hrun & _ & Hcalls & _).
  exists s'. split; [exact Hrun | exact Hcalls].
Defined.

(** C10.  When the gateway answers with a payload that decodes to a falsy
    value (an empty object, for one), the cycle returns False, makes no
    request but the one to the gateway and ends on the same log record as a
    cycle whose gateway request failed: the caller of [collect_and_upload]
    sees the same result and the same calls in both. *)
Theorem C10_empty_payload_as_unavailable W W' self s r v e :
  gateway_outcome W (ecowitt self) = Responded r ->
  request_fails (Responded r) = false ->
  json r = Some v ->
  truthy v = false ->
  gateway_outcome W' (ecowitt self) = Raised e ->
  exists s1 s1',
    collect_and_upload W self s = (Ok false, s1) /\
    collect_and_upload W' self s = (Ok false, s1') /\
    calls s1 = (calls s ++ [gateway_call (ecowitt self)])%list /\
    calls s1' = calls s1 /\
    tick s1' = tick s1 /\
    last (log s1) = Some (ERROR, MsgNoEcowittData) /\
    last (log s1') = last (log s1).
Proof.
  intros Hout Hstatus Hjson Hfalsy Hout'.
  assert (Hget : get_local_data W (ecowitt self) s =
                 (Ok v, after_log (after_call s (gateway_call (ecowitt self)))
                                  INFO MsgEcowittRetrieved)).
  { rewrite get_local_data_run, Hout. unfold fetch_json.
    simpl in Hstatus. rewrite Hstatus, Hjson. reflexivity. }
  assert (Hget' : get_local_data W' (ecowitt self) s =
                  (Ok PNone,
                   after_log (after_call s (gateway_call (ecowitt self)))
                             ERROR (MsgEcowittFailed e))).
  { rewrite get_local_data_run, Hout'. reflexivity. }
  destruct (cycle_stops_on_falsy _ _ _ _ _ Hget Hfalsy) as [Hrun Hc].
  destruct (cycle_stops_on_falsy _ _ _ _ _ Hget' eq_refl) as [Hrun' Hc'].
  eexists _, _. split; [exact Hrun|]. split; [exact Hrun'|].
  split; [exact Hc|].
  split; [reflexivity|]. split; [reflexivity|].
  split; apply last_snoc || (simpl; rewrite !last_snoc; reflexivity).
Qed.

(** C10 on the station: an empty object against a timeout. *)
Lemma C10_witness :
  exists s1 s1',
    collect_and_upload (world_of (Responded empty_object)
                                 (Responded (clouds_answer (PInt 25) "25"))
                                 (Responded accepted)) station initial_state
      = (Ok false, s1) /\
    collect_and_upload (world_of (Raised ReadTimeout)
                                 (Responded (clouds_answer (PInt 25) "25"))
                                 (Responded accepted)) station initial_state
      = (Ok false, s1') /\
    calls s1 = [gateway_call (ecowitt station)] /\
    calls s1' = calls s1.
Proof.
  destruct (C10_empty_payload_as_unavailable
              (world_of (Responded empty_object)
                        (Responded (clouds_answer (PInt 25) "25"))
                        (Responded accepted))
              (world_of (Raised ReadTimeout)
                        (Responded (clouds_answer (PInt 25) "25"))
                        (Responded accepted))
              station initial_state empty_object (PDict ∅) ReadTimeout
              eq_refl eq_refl eq_refl eq_refl eq_refl)
    as (s1 & s1' & H1 & H2 & H3 & H4 & _).
  exists s1, s1'. repeat split; assumption.
Defined.

(** ** The cycle when the enrichment gives nothing *)

(** C5.  When the local fetch and the parse succeed and the enrichment
    fetch returns None, the cycle still uploads: its last request is the
    upload of a WeatherData whose cloud_coverage is 0, sent as the
    parameter clouds = 0. *)
Theorem C5_enrichment_unavailable_uploads_zero W self s parsed s3 :
  reaches_aggregation W self s parsed PNone s3 ->
  exists wd r s',
    collect_and_upload W self s = (r, s') /\
    cloud_coverage wd = PInt 0 /\
    In (WARNING, MsgCloudDefault) (log s') /\
    In (INFO, MsgCombined wd) (log s') /\
    last (calls s') = Some (upload_call (uploader self) wd) /\
    upload_params (uploader self) wd !! "clouds" = Some (PInt 0).
Proof.
  intros Hreach.
  destruct (cycle_aggregates _ _ _ _ _ _ Hreach) as (d & -> & Hrun & _ & _).
  cbv zeta in Hrun.
  set (s4 := before_utcnow s3 PNone) in *.
  set (wd := reading d PNone (clock W (tick s4))) in *.
  set (s5 := after_log (after_call s4 UtcNow) INFO (MsgCombined wd)) in *.
  destruct (upload_data_effects W (uploader self) wd s5)
    as (r & s' & l & Hup & Hcalls & _ & Hlog & _).
  exists wd, r, s'. rewrite Hrun, Hup.
  split; [reflexivity|]. split; [reflexivity|].
  split; [|split; [|split]].
  - rewrite Hlog. subst s5 s4. simpl.
    rewrite !in_app_iff. simpl. auto.
  - rewrite Hlog. subst s5. simpl.
    rewrite !in_app_iff. simpl. auto.
  - rewrite Hcalls. apply last_snoc.
  - reflexivity.
Qed.

Lemma station_reaches_aggregation (gateway : Response) (owm wu : http_outcome)
  (raw : pyval) (d : gmap string pyval) (cc : pyval) (lvl : level)
  (m : message) :
  request_fails (Responded gateway) = false ->
  json gateway = Some raw ->
  truthy raw = true ->
  parse_fields raw = Some d ->
  get_cloud_coverage (world_of (Responded gateway) owm wu)
    (cloud_provider station)
    (after_log (after_call initial_state (gateway_call (ecowitt station)))
               INFO MsgEcowittRetrieved)
  = (Ok cc,
     after_log
       (after_call
          (after_log (after_call initial_state (gateway_call (ecowitt station)))
                     INFO MsgEcowittRetrieved)
          (owm_call (cloud_provider station))) lvl m) ->
  reaches_aggregation (world_of (Responded gateway) owm wu) station
    initial_state (PDict d) cc
    (after_log
       (after_call
          (after_log (after_call initial_state (gateway_call (ecowitt station)))
                     INFO MsgEcowittRetrieved)
          (owm_call (cloud_provider station))) lvl m).
Proof.
  intros Hstatus Hjson Hraw Hfields Hcloud.
  eapply mk_reaches with (raw := raw); [| exact Hraw | | | exact Hcloud].
  - rewrite get_local_data_run.
    change (gateway_outcome _ _) with (Responded gateway).
    unfold fetch_json. simpl in Hstatus. rewrite Hstatus, Hjson. reflexivity.
  - rewrite parse_data_run, Hfields. reflexivity.
  - apply (parse_fields_truthy _ _ Hfields).
Qed.

(** C5 on the station: full measurements, the enrichment times out. *)
Lemma C5_witness :
  exists wd r s',
    collect_and_upload (world_of (Responded full_answer) (Raised ReadTimeout)
                                 (Responded accepted)) station initial_state
      = (r, s') /\
    cloud_coverage wd = PInt 0 /\
    last (calls s') = Some (upload_call (uploader station) wd).
Proof.
  destruct (C5_enrichment_unavailable_uploads_zero
              (world_of (Responded full_answer) (Raised ReadTimeout)
                        (Responded accepted))
              station initial_state _ _
              (station_reaches_aggregation full_answer (Raised ReadTimeout)
                 (Responded accepted) (PDict full_payload) _ PNone ERROR
                 (MsgCloudFailed ReadTimeout)
                 eq_refl eq_refl eq_refl eq_refl eq_refl))
    as (wd & r & s' & Hrun & Hcc & _ & _ & Hlast & _).
  exists wd, r, s'. repeat split; assumption.
Defined.

(** ** The aggregated reading *)

(** C8, as the program has it.  The cloud_coverage of the WeatherData a
    cycle builds is the value [get_cloud_coverage] returned, unchanged, or
    0 when that value is None; it is an integer from 0 to 100 whenever the
    enrichment gave such an integer or gave None, and is not brought into
    that range otherwise. *)
Theorem C8_cloud_coverage_passed_through W self s parsed cc s3 :
  reaches_aggregation W self s parsed cc s3 ->
  exists wd r s',
    collect_and_upload W self s = (r, s') /\
    In (INFO, MsgCombined wd) (log s') /\
    last (calls s') = Some (upload_call (uploader self) wd) /\
    cloud_coverage wd = (if is_None cc then PInt 0 else cc) /\
    (is_None cc || percentage cc = true -> percentage (cloud_coverage wd) = true).
Proof.
  intros Hreach.
  destruct (cycle_aggregates _ _ _ _ _ _ Hreach) as (d & -> & Hrun & _ & _).
  cbv zeta in Hrun.
  set (s4 := before_utcnow s3 cc) in *.
  set (wd := reading d cc (clock W (tick s4))) in *.
  set (s5 := after_log (after_call s4 UtcNow) INFO (MsgCombined wd)) in *.
  destruct (upload_data_effects W (uploader self) wd s5)
    as (r & s' & l & Hup & Hcalls & _ & Hlog & _).
  exists wd, r, s'. rewrite Hrun, Hup.
  split; [reflexivity|]. split; [|split; [|split]].
  - rewrite Hlog. subst s5. simpl. rewrite !in_app_iff. simpl. auto.
  - rewrite Hcalls. apply last_snoc.
  - reflexivity.
  - subst wd. simpl. destruct cc; simpl; auto.
Qed.

(** C8 on the station: the enrichment answers 25. *)
Lemma C8_witness :
  exists wd r s',
    collect_and_upload (world_of (Responded full_answer)
                                 (Responded (clouds_answer (PInt 25) "25"))
                                 (Responded accepted)) station initial_state
      = (r, s') /\
    cloud_coverage wd = PInt 25 /\
    percentage (cloud_coverage wd) = true.
Proof.
  destruct (C8_cloud_coverage_passed_through
              (world_of (Responded full_answer)
                        (Responded (clouds_answer (PInt 25) "25"))
                        (Responded accepted))
              station initial_state _ _ _
              (station_reaches_aggregation full_answer
                 (Responded (clouds_answer (PInt 25) "25"))
                 (Responded accepted) (PDict full_payload) _ (PInt 25) INFO
                 (MsgCloudCoverage (PInt 25))
                 eq_refl eq_refl eq_refl eq_refl eq_refl))
    as (wd & r & s' & Hrun & _ & _ & Hcc & Hpct).
  exists wd, r, s'. split; [exact Hrun|]. split; [exact Hcc|].
  apply Hpct. reflexivity.
Defined.

(** C8 as the specification states it fails: the enrichment answers 250
    under clouds.all, and the reading the cycle builds and uploads carries
    250. *)
Lemma C8_counterexample :
  let W := world_of (Responded full_answer)
                    (Responded (clouds_answer (PInt 250) "250"))
                    (Responded accepted) in
  exists wd,
    In (INFO, MsgCombined wd) (log (snd (collect_and_upload W station initial_state))) /\
    In (upload_call (uploader station) wd)
       (calls (snd (collect_and_upload W station initial_state))) /\
    cloud_coverage wd = PInt 250 /\
    percentage (cloud_coverage wd) = false.
Proof.
  eexists. split; [|split; [|split]].
  - vm_compute. right. right. left. reflexivity.
  - vm_compute. right. right. right. left. reflexivity.
  - reflexivity.
  - reflexivity.
Qed.

(** ** The timestamp *)

(** C9.  In a cycle that builds a WeatherData the clock is read exactly
    once, after the gateway and the enrichment requests have returned and
    before the upload request is made; the value read is the timestamp of
    the reading, and with a clock that does not run backwards it lies
    between the instant the cycle started and the instant it returned. *)
Theorem C9_timestamp_at_aggregation W self s parsed cc s3 :
  reaches_aggregation W self s parsed cc s3 ->
  clock_monotone W ->
  exists wd r s',
    collect_and_upload W self s = (r, s') /\
    calls s' = (calls s ++ [gateway_call (ecowitt self);
                            owm_call (cloud_provider self);
                            UtcNow;
                            upload_call (uploader self) wd])%list /\
    In (INFO, MsgCombined wd) (log s') /\
    timestamp wd = clock W (tick s + 2)%nat /\
    tick s' = (tick s + 4)%nat /\
    datetime_le (clock W (tick s)) (timestamp wd) = true /\
    datetime_le (timestamp wd) (clock W (tick s')) = true.
Proof.
  intros Hreach Hmono.
  destruct (cycle_aggregates _ _ _ _ _ _ Hreach)
    as (d & -> & Hrun & Hcalls4 & Htick4).
  cbv zeta in Hrun, Hcalls4, Htick4.
  set (s4 := before_utcnow s3 cc) in *.
  set (wd := reading d cc (clock W (tick s4))) in *.
  set (s5 := after_log (after_call s4 UtcNow) INFO (MsgCombined wd)) in *.
  destruct (upload_data_effects W (uploader self) wd s5)
    as (r & s' & l & Hup & Hcalls & Htick & Hlog & _).
  assert (Hts : timestamp wd = clock W (tick s + 2)%nat).
  { subst wd. simpl. rewrite Htick4. reflexivity. }
  assert (Htick' : tick s' = (tick s + 4)%nat).
  { rewrite Htick. subst s5. simpl. rewrite Htick4. lia. }
  exists wd, r, s'. rewrite Hrun, Hup.
  split; [reflexivity|]. split; [|split; [|split; [|split; [|split]]]].
  - rewrite Hcalls. subst s5. simpl. rewrite Hcalls4, <- !app_assoc.
    reflexivity.
  - rewrite Hlog. subst s5. simpl. rewrite !in_app_iff. simpl. auto.
  - exact Hts.
  - exact Htick'.
  - rewrite Hts. apply Hmono. lia.
  - rewrite Hts, Htick'. apply Hmono. lia.
Qed.

Lemma world_of_clock_monotone gateway owm wu :
  clock_monotone (world_of gateway owm wu).
Proof.
  intros i j Hij. unfold datetime_le, datetime_key. simpl.
  destruct (Nat.ltb_spec i j) as [Hlt|Hge]; [reflexivity|].
  destruct (Nat.ltb_spec j i) as [Hlt'|Hge']; [lia | reflexivity].
Qed.

(** C9 on the station, with a clock of one second per instant. *)
Lemma C9_witness :
  exists wd r s',
    collect_and_upload (world_of (Responded full_answer)
                                 (Responded (clouds_answer (PInt 25) "25"))
                                 (Responded accepted)) station initial_state
      = (r, s') /\
    timestamp wd = mk_datetime 2024 1 1 0 0 2 0 /\
    datetime_le (mk_datetime 2024 1 1 0 0 0 0) (timestamp wd) = true /\
    datetime_le (timestamp wd) (mk_datetime 2024 1 1 0 0 4 0) = true.
Proof.
  destruct (C9_timestamp_at_aggregation
              (world_of (Responded full_answer)
                        (Responded (clouds_answer (PInt 25) "25"))
                        (Responded accepted))
              station initial_state _ _ _
              (station_reaches_aggregation full_answer
                 (Responded (clouds_answer (PInt 25) "25"))
                 (Responded accepted) (PDict full_payload) _ (PInt 25) INFO
                 (MsgCloudCoverage (PInt 25))
                 eq_refl eq_refl eq_refl eq_refl eq_refl)
              (world_of_clock_monotone _ _ _))
    as (wd & r & s' & Hrun & _ & _ & Hts & Htick & Hle1 & Hle2).
  exists wd, r, s'. split; [exact Hrun|]. split; [exact Hts|].
  split; [exact Hle1|]. rewrite Htick in Hle2. exact Hle2.
Defined.

(** ** Rendering the reading *)

Lemma digit_code (n : nat) : nat_of_ascii (digit n) = (48 + n mod 10)%nat.
Proof.
  unfold digit. apply nat_ascii_embedding.
  pose proof (Nat.mod_upper_bound n 10). lia.
Qed.

Lemma digit_is_digit (n : nat) : is_digit (digit n) = true.
Proof.
  unfold is_digit. rewrite digit_code.
  pose proof (Nat.mod_upper_bound n 10).
  apply andb_true_iff. split; apply Nat.leb_le; lia.
Qed.

Lemma digit_value_digit (n : nat) : digit_value (digit n) = (n mod 10)%nat.
Proof. unfold digit_value. rewrite digit_code. lia. Qed.

Lemma pad2_renders (n : nat) :
  (n < 100)%nat ->
  String.length (pad2 n) = 2%nat /\ all_digits (pad2 n) = true /\
  decimal_value (pad2 n) = n.
Proof.
  intros Hn. unfold pad2. split; [reflexivity|]. split.
  - cbn [all_digits]. rewrite !digit_is_digit. reflexivity.
  - unfold decimal_value. cbn [decimal_value_from].
    rewrite !digit_value_digit.
    pose proof (Nat.div_mod_eq n 10).
    assert (n / 10 < 10)%nat by (apply Nat.Div0.div_lt_upper_bound; lia).
    rewrite (Nat.mod_small (n / 10) 10) by assumption. lia.
Qed.

Lemma pad4_renders (n : nat) :
  (n < 100 * 100)%nat ->
  String.length (pad4 n) = 4%nat /\ all_digits (pad4 n) = true /\
  decimal_value (pad4 n) = n.
Proof.
  intros Hn. unfold pad4, pad2. split; [reflexivity|]. split.
  - cbn [all_digits]. rewrite !digit_is_digit. reflexivity.
  - unfold decimal_value. cbn [decimal_value_from].
    rewrite !digit_value_digit.
    assert (H1 : (n / 1000 < 10)%nat)
      by (apply Nat.Div0.div_lt_upper_bound; lia).
    rewrite (Nat.mod_small (n / 1000) 10) by assumption.
    pose proof (Nat.div_mod_eq n 10) as E1.
    pose proof (Nat.div_mod_eq (n / 10) 10) as E2.
    pose proof (Nat.div_mod_eq (n / 100) 10) as E3.
    rewrite (Nat.Div0.div_div n 10 10) in E2.
    rewrite (Nat.Div0.div_div n 100 10) in E3.
    replace (n / (10 * 10))%nat with (n / 100)%nat in E2 by reflexivity.
    replace (n / (100 * 10))%nat with (n / 1000)%nat in E3 by reflexivity.
    lia.
Qed.

Lemma strftime_dateutc (d : datetime) :
  strftime d "%Y-%m-%d %H:%M:%S" =
  pad4 (year d) ++ "-" ++ pad2 (month d) ++ "-" ++ pad2 (day d) ++ " " ++
  pad2 (hour d) ++ ":" ++ pad2 (minute d) ++ ":" ++ pad2 (second d).
Proof. reflexivity. Qed.

Lemma pad2_numeral (n : nat) : (n < 100)%nat -> numeral 2 n (pad2 n).
Proof. intros Hn. exact (pad2_renders n Hn). Qed.

Lemma pad4_numeral (n : nat) : (n < 100 * 100)%nat -> numeral 4 n (pad4 n).
Proof. intros Hn. exact (pad4_renders n Hn). Qed.

Lemma strftime_dateutc_format (d : datetime) :
  valid_datetime d -> dateutc_format d (strftime d "%Y-%m-%d %H:%M:%S").
Proof.
  intros (Hy & Hmo & Hd & Hh & Hmi & Hs).
  exists (pad4 (year d)), (pad2 (month d)), (pad2 (day d)), (pad2 (hour d)),
         (pad2 (minute d)), (pad2 (second d)).
  split; [apply strftime_dateutc|].
  split; [apply pad4_numeral; lia|].
  split; [apply pad2_numeral; lia|].
  split; [apply pad2_numeral; lia|].
  split; [apply pad2_numeral; lia|].
  split; apply pad2_numeral; lia.
Qed.

(** C6.  [upload_data] makes one request, to the upload URL, whose
    parameters are exactly the thirteen the target expects: the station ID
    and key, the timestamp written as YYYY-MM-DD HH:MM:SS, the seven
    measurements under the target's names, and the fixed action, realtime
    and rtfreq values. *)
Theorem C6_upload_parameters W self wd s :
  valid_datetime (timestamp wd) ->
  let p := upload_params self wd in
  calls (snd (upload_data W self wd s)) =
    (calls s ++ [HttpGet (upload_url self) (Some p)
                         (WundergroundUploader.timeout self)])%list /\
  dom p = wunderground_fields /\
  p !! "ID" = Some (PStr (station_id self)) /\
  p !! "PASSWORD" = Some (PStr (station_key self)) /\
  (exists ts, p !! "dateutc" = Some (PStr ts) /\
              dateutc_format (timestamp wd) ts) /\
  p !! "tempf" = Some (temperature wd) /\
  p !! "humidity" = Some (humidity wd) /\
  p !! "baromin" = Some (pressure wd) /\
  p !! "windspeedmph" = Some (wind_speed wd) /\
  p !! "winddir" = Some (wind_direction wd) /\
  p !! "rainin" = Some (rainfall wd) /\
  p !! "clouds" = Some (cloud_coverage wd) /\
  p !! "action" = Some (PStr "updateraw") /\
  p !! "realtime" = Some (PInt 1) /\
  p !! "rtfreq" = Some (PInt 2880).
Proof.
  intros Hvalid p.
  split.
  { destruct (upload_data_effects W self wd s)
      as (r & s1 & l & Hup & Hcalls & _).
    rewrite Hup. exact Hcalls. }
  split.
  { subst p. unfold upload_params, wunderground_fields.
    rewrite !dom_insert_L, dom_empty_L. set_solver. }
  split; [reflexivity|]. split; [reflexivity|].
  split.
  { eexists. split; [reflexivity|]. apply strftime_dateutc_format, Hvalid. }
  do 9 (split; [reflexivity|]). reflexivity.
Qed.

(** C6 on the reading of the specification's example. *)
Lemma C6_witness :
  let p := upload_params (uploader station) example_reading in
  dom p = wunderground_fields /\
  p !! "dateutc" = Some (PStr "2024-01-01 00:00:00") /\
  p !! "tempf" = Some (PFloat 725 (-1)) /\
  p !! "clouds" = Some (PInt 25).
Proof.
  assert (Hvalid : valid_datetime (timestamp example_reading)).
  { unfold valid_datetime. simpl. lia. }
  destruct (C6_upload_parameters
              (world_of (Responded full_answer)
                        (Responded (clouds_answer (PInt 25) "25"))
                        (Responded accepted))
              (uploader station) example_reading initial_state Hvalid)
    as (_ & Hdom & _ & _ & _ & Htemp & _ & _ & _ & _ & _ & Hclouds & _).
  split; [exact Hdom|]. split; [reflexivity|].
  split; [exact Htemp | exact Hclouds].
Defined.

(** ** Failed requests *)

(** C7, as the program has it.  When the request of a fetch raises (the
    connection is refused, it times out) or is answered with a 4xx or 5xx
    status, [get_local_data] and [get_cloud_coverage] log the cause as an
    error and return None; no exception reaches their caller. *)
Theorem C7_failed_request_gives_None W W' eco cp s s' :
  request_fails (gateway_outcome W eco) = true ->
  request_fails (owm_outcome W' cp) = true ->
  (exists e,
     get_local_data W eco s =
       (Ok PNone,
        after_log (after_call s (gateway_call eco)) ERROR
                  (MsgEcowittFailed e))) /\
  (exists e,
     get_cloud_coverage W' cp s' =
       (Ok PNone,
        after_log (after_call s' (owm_call cp)) ERROR (MsgCloudFailed e))).
Proof.
  intros Hgw Howm. split.
  - rewrite get_local_data_run. unfold fetch_json.
    destruct (gateway_outcome W eco) as [e|e|r]; simpl in Hgw.
    + exists e. reflexivity.
    + discriminate.
    + rewrite Hgw. eexists. reflexivity.
  - rewrite get_cloud_coverage_run. unfold fetch_json.
    destruct (owm_outcome W' cp) as [e|e|r]; simpl in Howm.
    + exists e. reflexivity.
    + discriminate.
    + rewrite Howm. eexists. reflexivity.
Qed.

(** C7 on the station: a refused connection and a 503 answer. *)
Lemma C7_witness :
  fst (get_local_data (world_of (Raised ConnectionError) (Raised ReadTimeout)
                                (Raised ReadTimeout))
                      (ecowitt station) initial_state) = Ok PNone /\
  fst (get_cloud_coverage
         (world_of (Raised ConnectionError)
                   (Responded (mk_Response 503 "Service Unavailable" None))
                   (Raised ReadTimeout))
         (cloud_provider station) initial_state) = Ok PNone.
Proof.
  destruct (C7_failed_request_gives_None
              (world_of (Raised ConnectionError) (Raised ReadTimeout)
                        (Raised ReadTimeout))
              (world_of (Raised ConnectionError)
                        (Responded (mk_Response 503 "Service Unavailable" None))
                        (Raised ReadTimeout))
              (ecowitt station) (cloud_provider station)
              initial_state initial_state eq_refl eq_refl)
    as [[e He] [e' He']].
  rewrite He, He'. split; reflexivity.
Defined.

(** C7 as the specification states it fails: a status outside 200..299
    that is not an error status (here 300) does not make
    [raise_for_status] raise, and [get_local_data] returns the decoded
    body. *)
Lemma C7_counterexample :
  let W := world_of (Responded multiple_choices)
                    (Responded (clouds_answer (PInt 25) "25"))
                    (Responded accepted) in
  spec_transport_failure (gateway_outcome W (ecowitt station)) = true /\
  fst (get_local_data W (ecowitt station) initial_state) =
    Ok (PDict (<["pressure" := PFloat 2992 (-2)]> ∅)) /\
  fst (get_local_data W (ecowitt station) initial_state) <> Ok PNone.
Proof.
  split; [reflexivity|]. split; [reflexivity|]. discriminate.
Qed.

(** ** The outcome of an upload *)





(** ** Fields the gateway did not report *)

Lemma parsed_dict_lookups t h p ws wd r :
  let d := parsed_dict t h p ws wd r in
  d !! "temperature" = Some t /\ d !! "humidity" = Some h /\
  d !! "pressure" = Some p /\ d !! "wind_speed" = Some ws /\
  d !! "wind_direction" = Some wd /\ d !! "rainfall" = Some r.
Proof.
  cbv zeta. unfold parsed_dict.
  split; [reflexivity|]. split; [reflexivity|]. split; [reflexivity|].
  split; [reflexivity|]. split; reflexivity.
Qed.

(** Every key of the parsed dictionary is present, so the defaults of
    [collect_and_upload] never apply: the reading carries the parsed
    values as they are, None included. *)
Lemma reading_of_parsed_dict t h p ws wd r cc now :
  reading (parsed_dict t h p ws wd r) cc now =
  {| temperature := t; humidity := h; pressure := p; wind_speed := ws;
     wind_direction := wd; rainfall := r;
     cloud_coverage := if is_None cc then PInt 0 else cc;
     timestamp := now |}.
Proof. reflexivity. Qed.

Lemma get_local_data_log W self s v s1 :
  get_local_data W self s = (Ok v, s1) ->
  exists m, log s1 = (log s ++ [m])%list /\ m <> (ERROR, MsgParseFailed).
Proof.
  rewrite get_local_data_run. intros H.
  destruct (fetch_json (gateway_outcome W self)); [|discriminate|];
    injection H as _ <-; eexists; (split; [reflexivity | discriminate]).
Qed.

Lemma get_cloud_coverage_log W self s r s1 :
  get_cloud_coverage W self s = (r, s1) ->
  exists l, log s1 = (log s ++ l)%list /\ ~ In (ERROR, MsgParseFailed) l.
Proof.
  rewrite get_cloud_coverage_run. intros H.
  destruct (fetch_json (owm_outcome W self)) as [e|e|data];
    [| |destruct (clouds_all data)]; injection H as _ <-.
  - eexists. split; [reflexivity|]. intros [H|[]]. discriminate.
  - exists []. split; [symmetry; apply app_nil_r | intros []].
  - eexists. split; [reflexivity|]. intros [H|[]]. discriminate.
  - exists []. split; [symmetry; apply app_nil_r | intros []].
Qed.

Lemma before_utcnow_effects s cc :
  calls (before_utcnow s cc) = calls s /\
  tick (before_utcnow s cc) = tick s /\
  exists l, log (before_utcnow s cc) = (log s ++ l)%list /\
            ~ In (ERROR, MsgParseFailed) l.
Proof.
  unfold before_utcnow. destruct (is_None cc); simpl.
  - split; [reflexivity|]. split; [reflexivity|].
    eexists. split; [reflexivity|]. intros [H|[]]. discriminate.
  - split; [reflexivity|]. split; [reflexivity|].
    exists []. split; [symmetry; apply app_nil_r | intros []].
Qed.

Lemma block_None_iff (d : gmap string pyval) (k : string) :
  block d k = None <-> exists v, d !! k = Some v /\ is_dict v = false.
Proof.
  unfold block. destruct (d !! k) as [v|] eqn:Hk; simpl.
  - destruct (is_dict v) eqn:Hv.
    + destruct v; try discriminate. split; [discriminate|].
      intros (v' & Hv' & Hd). injection Hv' as <-. discriminate.
    + split; [intros _; eauto|].
      intros _. destruct v; try reflexivity. discriminate.
  - split; [discriminate|]. intros (v & Hv & _). discriminate.
Qed.

Lemma parse_fields_None_iff (raw : pyval) :
  parse_fields raw = None <->
  is_dict raw = false \/
  exists d k v,
    raw = PDict d /\ (k = "outdoor" \/ k = "wind" \/ k = "rain") /\
    d !! k = Some v /\ is_dict v = false.
Proof.
  unfold parse_fields.
  destruct raw as [| | | | | |d]; simpl;
    try (split; [intros _; left; reflexivity | reflexivity]).
  destruct (block d "outdoor") as [o|] eqn:Ho.
  - destruct (block d "wind") as [w|] eqn:Hw.
    + destruct (block d "rain") as [r|] eqn:Hr.
      * split; [discriminate|].
        intros [H|(d' & k & v & Hd & Hk & Hv & Hnd)]; [discriminate|].
        injection Hd as <-.
        assert (Hb : block d k = None)
          by (apply block_None_iff; eauto).
        destruct Hk as [-> | [-> | ->]]; congruence.
      * split; [|reflexivity]. intros _. right.
        apply block_None_iff in Hr as (v & Hv & Hnd).
        exists d, "rain", v. auto.
    + split; [|reflexivity]. intros _. right.
      apply block_None_iff in Hw as (v & Hv & Hnd).
      exists d, "wind", v. auto.
  - split; [|reflexivity]. intros _. right.
    apply block_None_iff in Ho as (v & Hv & Hnd).
    exists d, "outdoor", v. auto.
Qed.

(** C2, as the program has it.  After a truthy payload, the cycle ends on
    "Failed to parse Ecowitt data" exactly when [parse_data] returns None,
    which it does exactly when the payload or one of its outdoor, wind and
    rain entries has no [get]; the cycle then returns False having made no
    request but the one to the gateway.  In every other case [parse_data]
    returns a dictionary, whatever it found: so it does for a payload that
    has none of the outdoor, wind and rain entries.  The cycle then goes
    on to the enrichment request and, when that returns, records the
    combined reading and asks for its upload. *)
Theorem C2_parse_failure_and_all_unknown W self s raw s1 v s2 :
  get_local_data W (ecowitt self) s = (Ok raw, s1) ->
  truthy raw = true ->
  parse_data (ecowitt self) raw s1 = (Ok v, s2) ->
  (v = PNone <->
   is_dict raw = false \/
   exists d k x,
     raw = PDict d /\ (k = "outdoor" \/ k = "wind" \/ k = "rain") /\
     d !! k = Some x /\ is_dict x = false) /\
  (forall d, raw = PDict d ->
     d !! "outdoor" = None -> d !! "wind" = None -> d !! "rain" = None ->
     v <> PNone) /\
  exists r s',
    collect_and_upload W self s = (r, s') /\
    (In (ERROR, MsgParseFailed) (log_since s s') <-> v = PNone) /\
    (v = PNone ->
       r = Ok false /\
       log s' = (log s2 ++ [(ERROR, MsgParseFailed)])%list /\
       calls s' = (calls s ++ [gateway_call (ecowitt self)])%list) /\
    (v <> PNone ->
       calls_since s s' !! 1%nat = Some (owm_call (cloud_provider self)) /\
       forall cc s3,
         get_cloud_coverage W (cloud_provider self) s1 = (Ok cc, s3) ->
         exists wd,
           In (INFO, MsgCombined wd) (log s') /\
           last (calls s') = Some (upload_call (uploader self) wd)).
Proof.
  intros Hget Hraw Hparse.
  destruct (get_local_data_effects _ _ _ _ _ Hget) as [Hc1 Ht1].
  destruct (get_local_data_log _ _ _ _ _ Hget) as (m1 & Hlog1 & Hm1).
  assert (Hiff : v = PNone <-> parse_fields raw = None).
  { revert Hparse. rewrite parse_data_run.
    destruct (parse_fields raw); intros H; injection H as <- _;
      split; intros; congruence. }
  split; [rewrite Hiff; apply parse_fields_None_iff|]. split.
  { intros d -> Ho Hw Hr Hv. apply Hiff in Hv.
    unfold parse_fields, block in Hv. rewrite Ho, Hw, Hr in Hv.
    discriminate. }
  rewrite collect_and_upload_run, Hget, Hraw.
  revert Hparse Hiff. rewrite parse_data_run.
  destruct (parse_fields raw) as [parsed|] eqn:Hfields;
    intros Hparse Hiff; injection Hparse as <- <-.
  - unfold enrich_and_upload, log_since, calls_since.
    destruct (get_cloud_coverage W (cloud_provider self) s1)
      as [[cc|e] s3] eqn:Hcloud;
      destruct (get_cloud_coverage_effects _ _ _ _ _ Hcloud) as [Hc3 Ht3];
      destruct (get_cloud_coverage_log _ _ _ _ _ Hcloud)
        as (l3 & Hlog3 & Hl3).
    + destruct (before_utcnow_effects s3 cc)
        as (Hc4 & Ht4 & l4 & Hlog4 & Hl4).
      set (s4 := before_utcnow s3 cc) in *.
      set (wd := reading _ cc (clock W (tick s4))).
      set (s5 := after_log (after_call s4 UtcNow) INFO (MsgCombined wd)).
      destruct (upload_data_effects W (uploader self) wd s5)
        as (r & s' & l' & Hup & Hcalls & _ & Hlog' & Hl').
      exists r, s'. rewrite Hup. split; [reflexivity|].
      split; [|split].
      * split; [|discriminate]. intros Hin. exfalso. revert Hin.
        rewrite Hlog'. subst s5. simpl.
        rewrite Hlog4, Hlog3, Hlog1, <- !app_assoc, drop_app_length.
        rewrite !in_app_iff. simpl.
        intros [[H|[]]|[H|[H|[[H|[]]|H]]]];
          try contradiction; try discriminate; congruence.
      * discriminate.
      * intros _. split.
        -- rewrite Hcalls. subst s5. simpl.
           rewrite Hc4, Hc3, Hc1, <- !app_assoc, drop_app_length.
           reflexivity.
        -- intros cc' s3' _. exists wd. split.
           ++ rewrite Hlog'. subst s5. simpl. rewrite !in_app_iff. simpl.
              auto.
           ++ rewrite Hcalls. apply last_snoc.
    + exists (Raise e), s3. split; [reflexivity|]. split; [|split].
      * split; [|discriminate]. intros Hin. exfalso. revert Hin.
        rewrite Hlog3, Hlog1, <- !app_assoc, drop_app_length.
        rewrite !in_app_iff. simpl.
        intros [[H|[]]|H]; try contradiction; congruence.
      * discriminate.
      * intros _. split.
        -- rewrite Hc3, Hc1, <- !app_assoc, drop_app_length. reflexivity.
        -- intros cc s3' H. discriminate.
  - eexists _, _. split; [reflexivity|]. split; [|split].
    + split; [reflexivity|]. intros _. unfold log_since. simpl.
      rewrite Hlog1, <- !app_assoc, drop_app_length. simpl. auto.
    + intros _. split; [reflexivity|]. split; [reflexivity|]. exact Hc1.
    + intros H. contradiction H. reflexivity.
Qed.

(** C2 on the station: an object with none of the expected fields. *)
Lemma C2_witness :
  exists r s',
    collect_and_upload (world_of (Responded no_fields)
                                 (Responded (clouds_answer (PInt 25) "25"))
                                 (Responded accepted)) station initial_state
      = (r, s') /\
    ~ In (ERROR, MsgParseFailed) (log_since initial_state s') /\
    calls_since initial_state s' !! 1%nat =
      Some (owm_call (cloud_provider station)).
Proof.
  destruct (C2_parse_failure_and_all_unknown
              (world_of (Responded no_fields)
                        (Responded (clouds_answer (PInt 25) "25"))
                        (Responded accepted))
              station initial_state
              (PDict (<["stations" := PList []]> ∅))
              (after_log (after_call initial_state
                            (gateway_call (ecowitt station)))
                         INFO MsgEcowittRetrieved)
              (PDict (parsed_dict PNone PNone PNone PNone PNone PNone))
              (after_log (after_call initial_state
                            (gateway_call (ecowitt station)))
                         INFO MsgEcowittRetrieved)
              eq_refl eq_refl eq_refl)
    as (_ & _ & r & s' & Hrun & Hlog & _ & Hgo).
  exists r, s'. split; [exact Hrun|]. split.
  - intros Hin. apply Hlog in Hin. discriminate.
  - apply Hgo. discriminate.
Defined.

(** C2 as the specification states it fails: the gateway answers with a
    well-formed object that names none of the six fields; every parsed
    field is None, yet the cycle builds a WeatherData, uploads it and
    returns True. *)
Lemma C2_counterexample :
  let W := world_of (Responded no_fields)
                    (Responded (clouds_answer (PInt 25) "25"))
                    (Responded accepted) in
  let all_unknown := parsed_dict PNone PNone PNone PNone PNone PNone in
  let wd := reading all_unknown (PInt 25) (mk_datetime 2024 1 1 0 0 2 0) in
  fst (parse_data (ecowitt station) (PDict (<["stations" := PList []]> ∅))
                  initial_state) = Ok (PDict all_unknown) /\
  fst (collect_and_upload W station initial_state) = Ok true /\
  In (INFO, MsgCombined wd)
     (log (snd (collect_and_upload W station initial_state))) /\
  In (upload_call (uploader station) wd)
     (calls (snd (collect_and_upload W station initial_state))) /\
  ~ In (ERROR, MsgParseFailed)
       (log (snd (collect_and_upload W station initial_state))).
Proof.
  cbv zeta. split; [reflexivity|]. split; [vm_compute; reflexivity|].
  split; [|split].
  - vm_compute. right. right. left. reflexivity.
  - vm_compute. right. right. right. left. reflexivity.
  - vm_compute. intros [H|[H|[H|[H|[]]]]]; discriminate.
Qed.

(** C1: the program does not do what the claim says.  The gateway reports
    the pressure only.  The reading the cycle builds and uploads has the
    pressure as reported, but the five fields that were absent are None
    and not 0: [parse_data] stores None under every key, so the default 0
    of [ecowitt_data.get(key, 0)] is never used. *)
Theorem C1_absent_fields_are_None_not_zero :
  let W := world_of (Responded pressure_only)
                    (Responded (clouds_answer (PInt 25) "25"))
                    (Responded accepted) in
  let wd := {| temperature := PNone; humidity := PNone;
               pressure := PFloat 2992 (-2); wind_speed := PNone;
               wind_direction := PNone; rainfall := PNone;
               cloud_coverage := PInt 25;
               timestamp := mk_datetime 2024 1 1 0 0 2 0 |} in
  fst (collect_and_upload W station initial_state) = Ok true /\
  log (snd (collect_and_upload W station initial_state)) =
    [(INFO, MsgEcowittRetrieved); (INFO, MsgCloudCoverage (PInt 25));
     (INFO, MsgCombined wd); (INFO, MsgUploadOk)] /\
  In (upload_call (uploader station) wd)
     (calls (snd (collect_and_upload W station initial_state))) /\
  temperature wd <> PInt 0 /\
  upload_params (uploader station) wd !! "tempf" = Some PNone.
Proof.
  cbv zeta. split; [vm_compute; reflexivity|].
  split; [vm_compute; reflexivity|]. split; [|split].
  - vm_compute. right. right. right. left. reflexivity.
  - discriminate.
  - reflexivity.
Qed.

(* ===================================================================== *)
(** * Further properties of the weather station *)
(* ===================================================================== *)

(** ** The gateway fetch *)

(** [get_local_data] makes one call of [requests.get], to the gateway.
    A RequestException of the call, a 4xx/5xx status and a body that is not
    JSON all give None with one error record; a decoded body is returned
    with one info record.  Any other exception, of the call or of the
    decoding, is not caught: it leaves [get_local_data] with nothing
    logged. *)
Theorem get_local_data_outcomes W self s :
  let s1 := after_call s (gateway_call self) in
  match gateway_outcome W self with
  | Raised e =>
      get_local_data W self s =
        (Ok PNone, after_log s1 ERROR (MsgEcowittFailed e))
  | Threw e => get_local_data W self s = (Raise (Builtin e), s1)
  | Responded r =>
      if request_fails (Responded r)
      then get_local_data W self s =
             (Ok PNone,
              after_log s1 ERROR (MsgEcowittFailed (HTTPError (status_code r))))
      else match json r, json_raises r with
           | Some data, _ =>
               get_local_data W self s =
                 (Ok data, after_log s1 INFO MsgEcowittRetrieved)
           | None, Some e => get_local_data W self s = (Raise (Builtin e), s1)
           | None, None =>
               get_local_data W self s =
                 (Ok PNone, after_log s1 ERROR (MsgEcowittFailed JSONDecodeError))
           end
  end.
Proof.
  cbv zeta. rewrite get_local_data_run. unfold fetch_json, request_fails.
  destruct (gateway_outcome W self) as [e|e|r]; [reflexivity|reflexivity|].
  destruct ((400 <=? status_code r) && (status_code r <? 600))%Z;
    [reflexivity|].
  destruct (json r) as [data|]; [reflexivity|].
  destruct (json_raises r); reflexivity.
Qed.

(** ** Parsing *)

Lemma parsed_dict_dom t h p ws wd r :
  dom (parsed_dict t h p ws wd r) = parsed_keys.
Proof.
  unfold parsed_dict, parsed_keys.
  rewrite !dom_insert_L, dom_empty_L. set_solver.
Qed.

Lemma parse_fields_dom raw parsed :
  parse_fields raw = Some parsed -> dom parsed = parsed_keys.
Proof.
  unfold parse_fields. intros H.
  destruct raw as [| | | | | |d]; try discriminate.
  destruct (block d "outdoor"), (block d "wind"), (block d "rain");
    try discriminate.
  injection H as <-. apply parsed_dict_dom.
Qed.

(** [parse_data] never raises, makes no request and does not read the
    clock.  Its result is None, with one error record logged, or a
    dictionary whose keys are exactly the six field names, with nothing
    logged. *)
Theorem parse_data_result_shape self raw s :
  exists v s',
    parse_data self raw s = (Ok v, s') /\
    calls s' = calls s /\ tick s' = tick s /\
    ((v = PNone /\
      log s' = (log s ++ [(ERROR, MsgParseError AttributeError)])%list) \/
     (exists d, v = PDict d /\ dom d = parsed_keys /\ s' = s)).
Proof.
  rewrite parse_data_run.
  destruct (parse_fields raw) as [parsed|] eqn:Hp.
  - eexists _, _. split; [reflexivity|]. split; [reflexivity|].
    split; [reflexivity|]. right. exists parsed.
    split; [reflexivity|]. split; [apply (parse_fields_dom _ _ Hp)|].
    reflexivity.
  - eexists _, _. split; [reflexivity|]. split; [reflexivity|].
    split; [reflexivity|]. left. split; reflexivity.
Qed.

(** [parse_data] returns None exactly when the payload is not a dictionary
    or has an outdoor, wind or rain entry that is not a dictionary.  Absent
    entries, and absent fields inside them, are no failure. *)
Theorem parse_data_None_iff self raw s :
  fst (parse_data self raw s) = Ok PNone <->
  is_dict raw = false \/
  exists d k v,
    raw = PDict d /\ (k = "outdoor" \/ k = "wind" \/ k = "rain") /\
    d !! k = Some v /\ is_dict v = false.
Proof.
  rewrite parse_data_run. unfold parse_fields.
  destruct raw as [| | | | | |d]; simpl;
    try (split; [intros _; left; reflexivity | reflexivity]).
  destruct (block d "outdoor") as [o|] eqn:Ho.
  - destruct (block d "wind") as [w|] eqn:Hw.
    + destruct (block d "rain") as [r|] eqn:Hr.
      * simpl. split; [discriminate|].
        intros [H|(d' & k & v & Hd & Hk & Hv & Hnd)]; [discriminate|].
        injection Hd as <-.
        assert (Hb : block d k = None)
          by (apply block_None_iff; eauto).
        destruct Hk as [-> | [-> | ->]]; congruence.
      * simpl. split; [|reflexivity]. intros _. right.
        apply block_None_iff in Hr as (v & Hv & Hnd).
        exists d, "rain", v. auto.
    + simpl. split; [|reflexivity]. intros _. right.
      apply block_None_iff in Hw as (v & Hv & Hnd).
      exists d, "wind", v. auto.
  - simpl. split; [|reflexivity]. intros _. right.
    apply block_None_iff in Ho as (v & Hv & Hnd).
    exists d, "outdoor", v. auto.
Qed.

Lemma block_nested_get (d b : gmap string pyval) (k inner : string) :
  block d k = Some b -> default PNone (b !! inner) = nested_get d k inner.
Proof.
  unfold block, nested_get.
  destruct (d !! k) as [v|]; simpl.
  - destruct v; try discriminate. intros H. injection H as <-. reflexivity.
  - intros H. injection H as <-. reflexivity.
Qed.

Lemma parse_fields_values (d parsed : gmap string pyval) :
  parse_fields (PDict d) = Some parsed ->
  parsed = parsed_dict (nested_get d "outdoor" "temperature")
                       (nested_get d "outdoor" "humidity")
                       (default PNone (d !! "pressure"))
                       (nested_get d "wind" "windspeed")
                       (nested_get d "wind" "winddir")
                       (nested_get d "rain" "rainevent").
Proof.
  unfold parse_fields.
  destruct (block d "outdoor") as [o|] eqn:Ho; [|discriminate].
  destruct (block d "wind") as [w|] eqn:Hw; [|discriminate].
  destruct (block d "rain") as [r|] eqn:Hr; [|discriminate].
  intros H. injection H as <-.
  rewrite !(block_nested_get _ _ _ _ Ho), !(block_nested_get _ _ _ _ Hw),
    !(block_nested_get _ _ _ _ Hr).
  reflexivity.
Qed.

(** ** The whole cycle, case by case *)

Lemma upload_data_result W self wd s :
  fst (upload_data W self wd s) = upload_result (upload_outcome W self wd).
Proof.
  rewrite upload_data_run. cbv zeta. unfold upload_result.
  destruct (upload_outcome W self wd) as [e|e|r]; [reflexivity|reflexivity|].
  destruct ((400 <=? status_code r) && (status_code r <? 600))%Z;
    [reflexivity|].
  destruct (str_in "success" (lower (text r))); reflexivity.
Qed.



Lemma cycle_cases W self s :
  let gw := gateway_call (ecowitt self) in
  let owm := owm_call (cloud_provider self) in
  (exists r s' l,
     collect_and_upload W self s = (r, s') /\
     (r = Ok false \/
      exists e,
        fetch_json (gateway_outcome W (ecowitt self)) = FetchCrashed e /\
        r = Raise (Builtin e)) /\
     calls s' = (calls s ++ [gw])%list /\
     tick s' = (tick s + 1)%nat /\
     log s' = (log s ++ l)%list /\
     forall wd, ~ In (INFO, MsgCombined wd) l) \/
  (exists e s' l,
     collect_and_upload W self s = (Raise e, s') /\
     (e = AttributeError \/
      exists x,
        fetch_json (owm_outcome W (cloud_provider self)) = FetchCrashed x /\
        e = Builtin x) /\
     calls s' = (calls s ++ [gw; owm])%list /\
     tick s' = (tick s + 2)%nat /\
     log s' = (log s ++ l)%list /\
     forall wd, ~ In (INFO, MsgCombined wd) l) \/
  (exists wd s' l,
     collect_and_upload W self s =
       (upload_result (upload_outcome W (uploader self) wd), s') /\
     calls s' =
       (calls s ++ [gw; owm; UtcNow; upload_call (uploader self) wd])%list /\
     tick s' = (tick s + 4)%nat /\
     log s' = (log s ++ l)%list /\
     In (INFO, MsgCombined wd) l /\
     timestamp wd = clock W (tick s + 2)%nat).
Proof.
  cbv zeta. rewrite collect_and_upload_run, get_local_data_run.
  destruct (fetch_json (gateway_outcome W (ecowitt self))) as [e|e|raw].
  { left. eexists _, _, _. split; [reflexivity|]. simpl.
    split; [left; reflexivity|]. split; [reflexivity|]. split; [lia|].
    split; [rewrite <- app_assoc; reflexivity|].
    intros wd [H|[H|[]]]; discriminate. }
  { left. eexists _, _, []. split; [reflexivity|]. simpl.
    split; [right; exists e; split; reflexivity|].
    split; [reflexivity|]. split; [lia|].
    split; [symmetry; apply app_nil_r | intros wd []]. }
  destruct (truthy raw).
  2:{ left. eexists _, _, _. split; [reflexivity|]. simpl.
      split; [left; reflexivity|]. split; [reflexivity|]. split; [lia|].
      split; [rewrite <- app_assoc; reflexivity|].
      intros wd [H|[H|[]]]; discriminate. }
  destruct (parse_fields raw) as [parsed|].
  2:{ left. eexists _, _, _. split; [reflexivity|]. simpl.
      split; [left; reflexivity|]. split; [reflexivity|]. split; [lia|].
      split; [rewrite <- !app_assoc; reflexivity|].
      intros wd [H|[H|[H|[]]]]; discriminate. }
  right. unfold enrich_and_upload. rewrite get_cloud_coverage_run.
  set (s1 := after_log (after_call s (gateway_call (ecowitt self))) INFO
                       MsgEcowittRetrieved).
  assert (Hleaf3 : forall s3 l3,
    calls s3 = (calls s ++ [gateway_call (ecowitt self);
                            owm_call (cloud_provider self)])%list ->
    tick s3 = (tick s + 2)%nat ->
    log s3 = (log s ++ l3)%list ->
    forall cc,
    let wd := reading parsed cc (clock W (tick s3)) in
    exists wd' s' l,
      upload_data W (uploader self) wd
        (after_log (after_call s3 UtcNow) INFO (MsgCombined wd)) =
        (upload_result (upload_outcome W (uploader self) wd'), s') /\
      calls s' =
        (calls s ++ [gateway_call (ecowitt self);
                     owm_call (cloud_provider self); UtcNow;
                     upload_call (uploader self) wd'])%list /\
      tick s' = (tick s + 4)%nat /\
      log s' = (log s ++ l)%list /\
      In (INFO, MsgCombined wd') l /\
      timestamp wd' = clock W (tick s + 2)%nat).
  { intros s3 l3 Hc Ht Hl cc wd.
    destruct (upload_data_effects W (uploader self) wd
                (after_log (after_call s3 UtcNow) INFO (MsgCombined wd)))
      as (r & s' & l' & Hup & Hcalls & Htick & Hlog' & _).
    assert (Hr : r = upload_result (upload_outcome W (uploader self) wd)).
    { rewrite <- (upload_data_result W (uploader self) wd
                    (after_log (after_call s3 UtcNow) INFO (MsgCombined wd))).
      rewrite Hup. reflexivity. }
    exists wd, s', (l3 ++ (INFO, MsgCombined wd) :: l')%list.
    rewrite Hup, Hr. split; [reflexivity|].
    split; [rewrite Hcalls; simpl; rewrite Hc, <- !app_assoc; reflexivity|].
    split; [rewrite Htick; simpl; rewrite Ht; lia|].
    split; [rewrite Hlog'; simpl; rewrite Hl, <- !app_assoc; reflexivity|].
    split; [rewrite in_app_iff; simpl; auto|].
    subst wd. simpl. rewrite Ht. reflexivity. }
  destruct (fetch_json (owm_outcome W (cloud_provider self))) as [e|e|data].
  { right. unfold before_utcnow. simpl is_None. cbv iota.
    eapply Hleaf3; subst s1; simpl.
    - rewrite <- app_assoc. reflexivity.
    - lia.
    - rewrite <- !app_assoc. reflexivity. }
  { left. eexists _, _, _. split; [reflexivity|]. subst s1. simpl.
    split; [right; exists e; split; reflexivity|].
    split; [rewrite <- app_assoc; reflexivity|]. split; [lia|].
    split; [reflexivity|].
    intros wd [H|[]]; discriminate. }
  destruct (clouds_all data) as [cc|].
  2:{ left. eexists _, _, _. split; [reflexivity|]. subst s1. simpl.
      split; [left; reflexivity|].
      split; [rewrite <- app_assoc; reflexivity|]. split; [lia|].
      split; [reflexivity|].
      intros wd [H|[]]; discriminate. }
  right. unfold before_utcnow.
  destruct (is_None cc); eapply Hleaf3; subst s1; simpl;
    rewrite <- ?app_assoc; try reflexivity; lia.
Qed.






(** ** What reaches the upload *)

(** When the gateway payload is a dictionary that [parse_data] accepts and
    the enrichment returns, the reading that is uploaded carries each of
    the six measurements exactly as the payload has it, and None for each
    one the payload lacks. *)
Theorem cycle_passes_fields_through W self s d s1 parsed s2 cc s3 :
  get_local_data W (ecowitt self) s = (Ok (PDict d), s1) ->
  truthy (PDict d) = true ->
  parse_data (ecowitt self) (PDict d) s1 = (Ok (PDict parsed), s2) ->
  get_cloud_coverage W (cloud_provider self) s2 = (Ok cc, s3) ->
  exists wd r s',
    collect_and_upload W self s = (r, s') /\
    last (calls s') = Some (upload_call (uploader self) wd) /\
    temperature wd = nested_get d "outdoor" "temperature" /\
    humidity wd = nested_get d "outdoor" "humidity" /\
    pressure wd = default PNone (d !! "pressure") /\
    wind_speed wd = nested_get d "wind" "windspeed" /\
    wind_direction wd = nested_get d "wind" "winddir" /\
    rainfall wd = nested_get d "rain" "rainevent".
Proof.
  intros Hget Hraw Hparse Hcloud.
  assert (Htruthy : truthy (PDict parsed) = true).
  { rewrite parse_data_run in Hparse.
    destruct (parse_fields (PDict d)) as [p|] eqn:Hp; [|discriminate].
    injection Hparse as <- _. apply (parse_fields_truthy _ _ Hp). }
  destruct (parse_data_truthy_inv _ _ _ _ _ Hparse Htruthy)
    as (p & Hp & _ & Hfields).
  injection Hp as <-.
  destruct (cycle_aggregates W self s (PDict parsed) cc s3
              (mk_reaches _ _ _ _ _ _ _ _ _ Hget Hraw Hparse Htruthy Hcloud))
    as (p & Hp & Hrun & _ & _).
  injection Hp as <-. cbv zeta in Hrun.
  set (s4 := before_utcnow s3 cc) in *.
  set (wd := reading parsed cc (clock W (tick s4))) in *.
  destruct (upload_data_effects W (uploader self) wd
              (after_log (after_call s4 UtcNow) INFO (MsgCombined wd)))
    as (r & s' & l' & Hup & Hcalls & _).
  exists wd, r, s'. rewrite Hrun, Hup. split; [reflexivity|].
  split; [rewrite Hcalls; apply last_snoc|].
  subst wd. rewrite (parse_fields_values _ _ Hfields).
  rewrite reading_of_parsed_dict. cbn [temperature humidity pressure
    wind_speed wind_direction rainfall].
  split; [reflexivity|]. split; [reflexivity|]. split; [reflexivity|].
  split; [reflexivity|]. split; reflexivity.
Qed.

(** The cycle on the full answer: the uploaded reading has the six values
    of the payload. *)
Lemma cycle_passes_fields_through_witness :
  exists wd r s',
    collect_and_upload (world_of (Responded full_answer)
                                 (Responded (clouds_answer (PInt 25) "25"))
                                 (Responded accepted)) station initial_state
      = (r, s') /\
    temperature wd = PFloat 725 (-1) /\
    wind_direction wd = PInt 180.
Proof.
  destruct (cycle_passes_fields_through
              (world_of (Responded full_answer)
                        (Responded (clouds_answer (PInt 25) "25"))
                        (Responded accepted))
              station initial_state full_payload _ _ _ (PInt 25) _
              eq_refl eq_refl eq_refl eq_refl)
    as (wd & r & s' & Hrun & _ & Ht & _ & _ & _ & Hwd & _).
  exists wd, r, s'. split; [exact Hrun|]. split; [exact Ht | exact Hwd].
Defined.

(** ** The enrichment fetch *)

(** On an accepted answer whose body is a dictionary, [get_cloud_coverage]
    returns the value under clouds.all as it is, and 0 when the clouds
    entry is absent or is a dictionary without the key all. *)
Theorem get_cloud_coverage_value W self s r d :
  owm_outcome W self = Responded r ->
  request_fails (Responded r) = false ->
  json r = Some (PDict d) ->
  (d !! "clouds" = None ->
   fst (get_cloud_coverage W self s) = Ok (PInt 0)) /\
  (forall c, d !! "clouds" = Some (PDict c) ->
   fst (get_cloud_coverage W self s) = Ok (default (PInt 0) (c !! "all"))).
Proof.
  intros Hout Hst Hjson. rewrite get_cloud_coverage_run, Hout.
  unfold fetch_json. simpl in Hst. rewrite Hst, Hjson.
  unfold clouds_all, block. split.
  - intros ->. reflexivity.
  - intros c ->. reflexivity.
Qed.

(** The enrichment answers with a dictionary that has no clouds entry. *)
Lemma get_cloud_coverage_value_witness :
  fst (get_cloud_coverage
         (world_of (Responded full_answer)
                   (Responded (mk_Response 200 "{}" (Some (PDict ∅))))
                   (Responded accepted))
         (cloud_provider station) initial_state) = Ok (PInt 0).
Proof.
  destruct (get_cloud_coverage_value
              (world_of (Responded full_answer)
                        (Responded (mk_Response 200 "{}" (Some (PDict ∅))))
                        (Responded accepted))
              (cloud_provider station) initial_state
              (mk_Response 200 "{}" (Some (PDict ∅))) ∅
              eq_refl eq_refl eq_refl) as [H _].
  exact (H eq_refl).
Defined.

(** [get_cloud_coverage] raises in three cases and no other: the call of
    [requests.get] raised an exception that is no RequestException; the
    answer had an accepted status and decoding its body raised such an
    exception; or the decoded body is not a dictionary, or has a clouds
    entry that is not one.  It raises that exception in the first two
    cases and AttributeError in the third.  Its except clause catches none
    of them, so it raises after the one call, with nothing logged. *)
Theorem get_cloud_coverage_raises_iff W self s e :
  (fst (get_cloud_coverage W self s) = Raise e <->
   match owm_outcome W self with
   | Raised _ => False
   | Threw x => e = Builtin x
   | Responded r =>
       request_fails (Responded r) = false /\
       match json r with
       | None => exists x, json_raises r = Some x /\ e = Builtin x
       | Some data =>
           e = AttributeError /\
           (is_dict data = false \/
            exists d v, data = PDict d /\ d !! "clouds" = Some v /\
                        is_dict v = false)
       end
   end) /\
  (fst (get_cloud_coverage W self s) = Raise e ->
   snd (get_cloud_coverage W self s) = after_call s (owm_call self)).
Proof.
  rewrite get_cloud_coverage_run. unfold fetch_json, request_fails.
  destruct (owm_outcome W self) as [x|x|r].
  { split; [split; [discriminate | intros []] | discriminate]. }
  { split; [|reflexivity]. cbn [fst]. split; congruence. }
  destruct ((400 <=? status_code r) && (status_code r <? 600))%Z eqn:E.
  { split; [|discriminate].
    split; [discriminate | intros [H _]; discriminate]. }
  destruct (json r) as [data|] eqn:Ej.
  2:{ destruct (json_raises r) as [x|] eqn:Ex.
      - split; [|reflexivity]. cbn [fst]. split.
        + intros H. split; [reflexivity|]. exists x. split; congruence.
        + intros (_ & x' & Hx' & ->). congruence.
      - split; [|discriminate]. split; [discriminate|].
        intros (_ & x & Hx & _). discriminate. }
  unfold clouds_all.
  destruct data as [| | | | | |d];
    try (split; [|reflexivity]; cbn [fst]; split;
         [intros H; split; [reflexivity|];
          split; [congruence | left; reflexivity]
         |intros (_ & -> & _); reflexivity]).
  destruct (block d "clouds") as [c|] eqn:Hc.
  - split; [|discriminate]. split; [discriminate|].
    intros (_ & _ & [H | (d' & v & Hd & Hv & Hnd)]); [discriminate|].
    injection Hd as <-.
    assert (Hb : block d "clouds" = None) by (apply block_None_iff; eauto).
    congruence.
  - split; [|reflexivity]. cbn [fst]. split.
    + intros H. split; [reflexivity|]. split; [congruence|]. right.
      apply block_None_iff in Hc as (v & Hv & Hnd). eauto.
    + intros (_ & -> & _). reflexivity.
Qed.

Lemma get_cloud_coverage_raise_inv W self s e s1 :
  get_cloud_coverage W self s = (Raise e, s1) ->
  s1 = after_call s (owm_call self).
Proof.
  rewrite get_cloud_coverage_run. intros H.
  destruct (fetch_json (owm_outcome W self)) as [e'|e'|data];
    [discriminate | injection H as _ <-; reflexivity |].
  destruct (clouds_all data); [discriminate|].
  injection H as _ <-. reflexivity.
Qed.

(** An exception of the enrichment leaves the cycle as it is: no reading is
    built, the clock is not read and nothing is uploaded. *)
Theorem cycle_propagates_enrichment_error W self s raw s1 parsed s2 e s3 :
  get_local_data W (ecowitt self) s = (Ok raw, s1) ->
  truthy raw = true ->
  parse_data (ecowitt self) raw s1 = (Ok parsed, s2) ->
  truthy parsed = true ->
  get_cloud_coverage W (cloud_provider self) s2 = (Raise e, s3) ->
  collect_and_upload W self s = (Raise e, s3) /\
  calls_since s s3 = [gateway_call (ecowitt self);
                      owm_call (cloud_provider self)] /\
  forall wd, ~ In (INFO, MsgCombined wd) (log_since s s3).
Proof.
  intros Hget Hraw Hparse Hparsed Hcloud.
  destruct (parse_data_truthy_inv _ _ _ _ _ Hparse Hparsed)
    as (d & -> & -> & Hfields).
  rewrite collect_and_upload_run, Hget, Hraw, Hfields.
  unfold enrich_and_upload. rewrite Hcloud. split; [reflexivity|].
  rewrite (get_cloud_coverage_raise_inv _ _ _ _ _ Hcloud).
  destruct (get_local_data_effects _ _ _ _ _ Hget) as [Hc1 _].
  destruct (get_local_data_log _ _ _ _ _ Hget) as (m1 & Hlog1 & _).
  unfold calls_since, log_since. simpl.
  rewrite Hc1, Hlog1, <- app_assoc, !drop_app_length.
  split; [reflexivity|].
  intros wd [H|[]]. subst m1.
  rewrite get_local_data_run in Hget.
  destruct (fetch_json (gateway_outcome W (ecowitt self)));
    [|discriminate|];
    injection Hget as _ <-; simpl in Hlog1;
    apply app_inv_head in Hlog1; discriminate.
Qed.

(** An enrichment that answers with a JSON list. *)
Lemma cycle_propagates_enrichment_error_witness :
  let W := world_of (Responded full_answer)
                    (Responded (mk_Response 200 "[]" (Some (PList []))))
                    (Responded accepted) in
  fst (collect_and_upload W station initial_state) = Raise AttributeError /\
  calls (snd (collect_and_upload W station initial_state)) =
    [gateway_call (ecowitt station); owm_call (cloud_provider station)].
Proof.
  cbv zeta.
  destruct (cycle_propagates_enrichment_error
              (world_of (Responded full_answer)
                        (Responded (mk_Response 200 "[]" (Some (PList []))))
                        (Responded accepted))
              station initial_state (PDict full_payload) _ _ _
              AttributeError _
              eq_refl eq_refl eq_refl eq_refl eq_refl)
    as (Hrun & _ & _).
  rewrite Hrun. split; reflexivity.
Defined.

(** ** The timestamp sent to the upload target *)

Lemma pad2_injective (n n' : nat) :
  (n < 100)%nat -> (n' < 100)%nat -> pad2 n = pad2 n' -> n = n'.
Proof.
  intros Hn Hn' H.
  destruct (pad2_renders n Hn) as (_ & _ & <-).
  destruct (pad2_renders n' Hn') as (_ & _ & <-).
  rewrite H. reflexivity.
Qed.

Lemma pad4_injective (n n' : nat) :
  (n < 100 * 100)%nat -> (n' < 100 * 100)%nat -> pad4 n = pad4 n' -> n = n'.
Proof.
  intros Hn Hn' H.
  destruct (pad4_renders n Hn) as (_ & _ & <-).
  destruct (pad4_renders n' Hn') as (_ & _ & <-).
  rewrite H. reflexivity.
Qed.

Lemma pad2_app_inv (n n' : nat) (rest rest' : string) :
  pad2 n ++ rest = pad2 n' ++ rest' -> pad2 n = pad2 n' /\ rest = rest'.
Proof.
  unfold pad2. rewrite !append_cons. intros H.
  injection H as H1 H2 H3.
  split; [f_equal; [exact H1 | f_equal; exact H2] | exact H3].
Qed.

Lemma pad4_app_inv (n n' : nat) (rest rest' : string) :
  pad4 n ++ rest = pad4 n' ++ rest' -> pad4 n = pad4 n' /\ rest = rest'.
Proof.
  unfold pad4, pad2. rewrite !append_cons. intros H.
  injection H as H1 H2 H3 H4 H5.
  split; [|exact H5].
  f_equal; [exact H1|]. f_equal; [exact H2|].
  f_equal; [exact H3|]. f_equal; exact H4.
Qed.

Lemma sep_app_inv (c : ascii) (rest rest' : string) :
  String c "" ++ rest = String c "" ++ rest' -> rest = rest'.
Proof. rewrite !append_cons. intros H. injection H as H. exact H. Qed.

(** The dateutc text has 19 characters and determines the timestamp to the
    second: two datetimes rendered alike agree on year, month, day, hour,
    minute and second. *)
Theorem dateutc_determines_timestamp (d d' : datetime) :
  valid_datetime d -> valid_datetime d' ->
  String.length (strftime d "%Y-%m-%d %H:%M:%S") = 19%nat /\
  (strftime d "%Y-%m-%d %H:%M:%S" = strftime d' "%Y-%m-%d %H:%M:%S" ->
   year d = year d' /\ month d = month d' /\ day d = day d' /\
   hour d = hour d' /\ minute d = minute d' /\ second d = second d').
Proof.
  intros (Hy & Hmo & Hd & Hh & Hmi & Hs) (Hy' & Hmo' & Hd' & Hh' & Hmi' & Hs').
  split; [reflexivity|].
  rewrite !strftime_dateutc. intros H.
  apply pad4_app_inv in H as [HY H]. apply sep_app_inv in H.
  apply pad2_app_inv in H as [HMo H]. apply sep_app_inv in H.
  apply pad2_app_inv in H as [HD H]. apply sep_app_inv in H.
  apply pad2_app_inv in H as [HH H]. apply sep_app_inv in H.
  apply pad2_app_inv in H as [HMi H]. apply sep_app_inv in H.
  assert (HS : pad2 (second d) = pad2 (second d')) by exact H.
  split; [apply pad4_injective; [lia | lia | exact HY]|].
  split; [apply pad2_injective; [lia | lia | exact HMo]|].
  split; [apply pad2_injective; [lia | lia | exact HD]|].
  split; [apply pad2_injective; [lia | lia | exact HH]|].
  split; apply pad2_injective; try lia; assumption.
Qed.

(** Midnight and one second past midnight are rendered with 19
    characters. *)
Lemma dateutc_determines_timestamp_witness :
  String.length
    (strftime (mk_datetime 2024 1 1 0 0 0 0) "%Y-%m-%d %H:%M:%S") = 19%nat.
Proof.
  assert (Hv : forall sec, (sec <= 59)%nat ->
                 valid_datetime (mk_datetime 2024 1 1 0 0 sec 0)).
  { intros sec Hsec. unfold valid_datetime. simpl. lia. }
  destruct (dateutc_determines_timestamp
              (mk_datetime 2024 1 1 0 0 0 0) (mk_datetime 2024 1 1 0 0 1 0)
              (Hv 0%nat ltac:(lia)) (Hv 1%nat ltac:(lia))) as [Hlen _].
  exact Hlen.
Defined.

(* ===================================================================== *)
(** * Properties of main *)
(* ===================================================================== *)

Lemma unconfigured_test (cfg : Settings) :
  str_in "your_" (OWM_API_KEY cfg) || str_in "your_" (WU_STATION_ID cfg)
    = true <-> unconfigured cfg.
Proof.
  unfold unconfigured. rewrite orb_true_iff, !str_in_spec. reflexivity.
Qed.

(** With a placeholder left in the OpenWeatherMap key or in the station
    ID, [main] logs one error and returns: no manager is built, no request
    is made, whatever the world and however long the run. *)
Theorem main_refuses_placeholders W cfg iterations :
  unconfigured cfg ->
  main W cfg iterations = (Returned, [Logged ERROR MsgPleaseConfigure]) /\
  trace_calls (snd (main W cfg iterations)) = [].
Proof.
  intros Hcfg. apply unconfigured_test in Hcfg.
  unfold main, main_in. rewrite Hcfg. split; reflexivity.
Qed.

(** The key as the program is distributed before it is configured. *)
Lemma main_refuses_placeholders_witness :
  main (world_of (Responded full_answer)
                 (Responded (clouds_answer (PInt 25) "25"))
                 (Responded accepted))
       (mk_Settings "192.168.68.99" "your_api_key" (PInt 0) (PInt 0)
                    "KCOLITTL1240" "station-key") 3
  = (Returned, [Logged ERROR MsgPleaseConfigure]).
Proof.
  assert (Hcfg : unconfigured
                   (mk_Settings "192.168.68.99" "your_api_key" (PInt 0)
                      (PInt 0) "KCOLITTL1240" "station-key")).
  { left. exists "", "api_key". reflexivity. }
  destruct (main_refuses_placeholders
              (world_of (Responded full_answer)
                        (Responded (clouds_answer (PInt 25) "25"))
                        (Responded accepted))
              _ 3%nat Hcfg) as [H _].
  exact H.
Defined.

Lemma trace_calls_app (a b : list main_event) :
  trace_calls (a ++ b) = (trace_calls a ++ trace_calls b)%list.
Proof. apply flat_map_app. Qed.

Lemma trace_results_app (a b : list main_event) :
  trace_results (a ++ b) = (trace_results a ++ trace_results b)%list.
Proof. apply flat_map_app. Qed.

Lemma trace_sleeps_app (a b : list main_event) :
  trace_sleeps (a ++ b) = (trace_sleeps a ++ trace_sleeps b)%list.
Proof. apply flat_map_app. Qed.

Lemma main_logger_INFO m trace :
  main_logger INFO m trace = (trace ++ [Logged INFO m])%list.
Proof. reflexivity. Qed.

Lemma configured_test (cfg : Settings) :
  ~ unconfigured cfg ->
  str_in "your_" (OWM_API_KEY cfg) || str_in "your_" (WU_STATION_ID cfg)
    = false.
Proof.
  intros Hcfg.
  destruct (str_in "your_" (OWM_API_KEY cfg)
            || str_in "your_" (WU_STATION_ID cfg)) eqn:E; [|reflexivity].
  destruct (Hcfg (proj1 (unconfigured_test cfg) E)).
Qed.

(** One pass of the loop, from the blank state of its instant. *)
Lemma cycle_from_blank W self now :
  exists r s',
    collect_and_upload W self (blank now) = (r, s') /\
    pass_calls self (calls s').
Proof.
  destruct (cycle_cases W self (blank now))
    as [(r & s' & l & Hrun & _ & Hc & _)
       |[(e & s' & l & Hrun & _ & Hc & _)
        |(wd & s' & l & Hrun & Hc & _)]];
    eexists _, s'; (split; [exact Hrun|]); rewrite Hc; unfold pass_calls;
    simpl; eauto.
Qed.

Lemma pass_calls_requests mgr cs :
  pass_calls mgr cs ->
  (1 <= List.length (filter (fun c => is_request c = true) cs) <= 3)%nat.
Proof.
  intros [-> | [-> | (wd & ->)]]; simpl; lia.
Qed.

Ltac raising_pass Hpc :=
  eexists _, [Logged INFO MsgCollecting; Cycle _ _ _];
  split; [rewrite <- app_assoc; reflexivity|];
  split; [intros r cs ls [H|[H|[]]]; [discriminate|];
          injection H as _ <- _; exact Hpc|];
  split; [constructor|];
  split; [intros [H|[H|[]]]; discriminate|];
  exists []; split; [reflexivity|].

(** The loop, whatever the worlds of its passes: the passes before the
    last one returned and were each followed by a sleep; the loop is left
    by the interrupt, between two passes or inside one, or by another
    exception of a pass. *)
Lemma main_loop_spec worlds mgr iterations :
  forall pass now trace,
  exists e ext,
    main_loop worlds mgr pass iterations now trace = (e, (trace ++ ext)%list) /\
    (forall r cs ls, In (Cycle r cs ls) ext -> pass_calls mgr cs) /\
    Forall (fun seconds => seconds = 300%Z) (trace_sleeps ext) /\
    ~ In (Logged INFO MsgShuttingDown) ext /\
    exists oks : list bool,
      List.length (trace_sleeps ext) = List.length oks /\
      match e with
      | Interrupted =>
          (trace_results ext = map Ok oks /\ List.length oks = iterations) \/
          (trace_results ext =
             (map Ok oks ++ [Raise (Builtin KeyboardInterrupt)])%list /\
           (List.length oks < iterations)%nat /\
           exists before cs ls,
             ext = (before ++
                    [Cycle (Raise (Builtin KeyboardInterrupt)) cs ls])%list)
      | Escaped x =>
          x <> Builtin KeyboardInterrupt /\
          trace_results ext = (map Ok oks ++ [Raise x])%list /\
          (List.length oks < iterations)%nat /\
          exists before cs ls, ext = (before ++ [Cycle (Raise x) cs ls])%list
      end.
Proof.
  induction iterations as [|n IH]; intros pass now trace.
  - exists Interrupted, []. cbn [main_loop]. rewrite app_nil_r.
    split; [reflexivity|]. split; [intros r cs ls []|].
    split; [constructor|]. split; [intros []|].
    exists []. split; [reflexivity|]. left. split; reflexivity.
  - cbn [main_loop]. cbv zeta.
    destruct (cycle_from_blank (worlds pass) mgr now) as (r & s' & Hrun & Hpc).
    rewrite Hrun. destruct r as [b|x]; rewrite !main_logger_INFO.
    + destruct (IH (S pass) (S (tick s'))
                  ((((trace ++ [Logged INFO MsgCollecting]) ++
                     [Cycle (Ok b) (calls s') (log s')]) ++
                    [Logged INFO (MsgWaiting UPDATE_INTERVAL)]) ++
                   [Sleep UPDATE_INTERVAL])%list)
        as (e & ext & Hloop & Hcalls & Hsl & Hnot & oks & Hlen & He).
      exists e,
        ([Logged INFO MsgCollecting; Cycle (Ok b) (calls s') (log s');
          Logged INFO (MsgWaiting UPDATE_INTERVAL); Sleep UPDATE_INTERVAL]
         ++ ext)%list.
      split; [rewrite Hloop, <- !app_assoc; reflexivity|].
      split.
      { intros r cs ls [H|[H|[H|[H|H]]]]; try discriminate.
        - injection H as _ <- _. exact Hpc.
        - exact (Hcalls r cs ls H). }
      rewrite trace_sleeps_app, trace_results_app.
      change (trace_sleeps [Logged INFO MsgCollecting;
                            Cycle (Ok b) (calls s') (log s');
                            Logged INFO (MsgWaiting UPDATE_INTERVAL);
                            Sleep UPDATE_INTERVAL]) with [300%Z].
      change (trace_results [Logged INFO MsgCollecting;
                             Cycle (Ok b) (calls s') (log s');
                             Logged INFO (MsgWaiting UPDATE_INTERVAL);
                             Sleep UPDATE_INTERVAL]) with [@Ok bool b].
      split; [constructor; [reflexivity | exact Hsl]|].
      split.
      { intros [H|[H|[H|[H|H]]]]; try discriminate. exact (Hnot H). }
      exists (b :: oks). split; [simpl; rewrite Hlen; reflexivity|].
      destruct e as [|x].
      * destruct He as [[Hres Hn] | (Hres & Hn & before & cs & ls & Hext)].
        -- left. rewrite Hres. split; [reflexivity | simpl; lia].
        -- right. rewrite Hres. split; [reflexivity|]. split; [simpl; lia|].
           eexists (_ :: _ :: _ :: _ :: before), cs, ls. rewrite Hext.
           reflexivity.
      * destruct He as (Hx & Hres & Hn & before & cs & ls & Hext).
        split; [exact Hx|]. rewrite Hres. split; [reflexivity|].
        split; [simpl; lia|].
        eexists (_ :: _ :: _ :: _ :: before), cs, ls. rewrite Hext.
        reflexivity.
    + destruct x as [q| |[| | |]]; raising_pass Hpc;
        try (split; [discriminate|]; split; [reflexivity|];
             split; [simpl; lia|];
             exists [Logged INFO MsgCollecting], (calls s'), (log s');
             reflexivity).
      right. split; [reflexivity|]. split; [simpl; lia|].
      exists [Logged INFO MsgCollecting], (calls s'), (log s'). reflexivity.
Qed.

(** A configured [main] leaves in one of three ways, whatever the services
    answer from pass to pass.  Interrupted between two passes, it has run
    [iterations] cycles, each of which returned (True or False alike) and
    was followed by a sleep.  Interrupted inside a cycle, it has run fewer
    cycles that returned, then the cycle the KeyboardInterrupt cut short.
    In both cases [main] returns, and its last record is the shutdown
    message.  Or a cycle raised another exception: nothing catches it, the
    cycle that raised is the last thing the run did, and no shutdown
    message is written.  There is one sleep for each cycle that
    returned. *)
Theorem main_exits worlds cfg iterations :
  ~ unconfigured cfg ->
  exists exit trace (oks : list bool),
    main_in worlds cfg iterations = (exit, trace) /\
    List.length (trace_sleeps trace) = List.length oks /\
    ((exit = Returned /\
      trace_results trace = map Ok oks /\
      List.length oks = iterations /\
      last trace = Some (Logged INFO MsgShuttingDown)) \/
     (exit = Returned /\
      trace_results trace =
        (map Ok oks ++ [Raise (Builtin KeyboardInterrupt)])%list /\
      (List.length oks < iterations)%nat /\
      exists before cs ls,
        trace = (before ++
                 [Cycle (Raise (Builtin KeyboardInterrupt)) cs ls;
                  Logged INFO MsgShuttingDown])%list) \/
     (exists e,
        exit = Uncaught e /\
        e <> Builtin KeyboardInterrupt /\
        trace_results trace = (map Ok oks ++ [Raise e])%list /\
        (List.length oks < iterations)%nat /\
        (exists before cs ls,
           trace = (before ++ [Cycle (Raise e) cs ls])%list) /\
        ~ In (Logged INFO MsgShuttingDown) trace)).
Proof.
  intros Hcfg. unfold main_in. rewrite (configured_test cfg Hcfg). cbv zeta.
  destruct (main_loop_spec worlds (manager_of cfg) iterations 0%nat 0%nat
              (main_logger INFO MsgStarting []))
    as (e & ext & Hloop & _ & _ & Hnot & oks & Hlen & He).
  rewrite Hloop.
  change (main_logger INFO MsgStarting []) with [Logged INFO MsgStarting].
  assert (Hs : trace_sleeps ([Logged INFO MsgStarting] ++ ext)
               = trace_sleeps ext) by (rewrite trace_sleeps_app; reflexivity).
  assert (Hr : trace_results ([Logged INFO MsgStarting] ++ ext)
               = trace_results ext)
    by (rewrite trace_results_app; reflexivity).
  destruct e as [|x].
  - eexists _, _, oks. split; [reflexivity|]. rewrite main_logger_INFO.
    rewrite trace_sleeps_app, trace_results_app, Hs, Hr.
    change (trace_sleeps [Logged INFO MsgShuttingDown]) with (@nil Z).
    change (trace_results [Logged INFO MsgShuttingDown])
      with (@nil (result bool)).
    rewrite !app_nil_r. split; [exact Hlen|].
    destruct He as [[Hres Hn] | (Hres & Hn & before & cs & ls & Hext)].
    + left. split; [reflexivity|]. split; [exact Hres|].
      split; [exact Hn | apply last_snoc].
    + right. left. split; [reflexivity|]. split; [exact Hres|].
      split; [exact Hn|].
      exists (Logged INFO MsgStarting :: before), cs, ls. rewrite Hext.
      rewrite <- !app_assoc. reflexivity.
  - destruct He as (Hx & Hres & Hn & before & cs & ls & Hext).
    eexists _, _, oks. split; [reflexivity|]. rewrite Hs, Hr.
    split; [exact Hlen|]. right. right. exists x.
    split; [reflexivity|]. split; [exact Hx|]. split; [exact Hres|].
    split; [exact Hn|]. split.
    + exists (Logged INFO MsgStarting :: before), cs, ls. rewrite Hext.
      reflexivity.
    + intros [H|H]; [discriminate | exact (Hnot H)].
Qed.

(** The settings of the examples hold no placeholder. *)
Lemma settings_configured : ~ unconfigured settings.
Proof.
  intros H. apply unconfigured_test in H. vm_compute in H. discriminate.
Qed.

(** A gateway that answers in the first pass; Ctrl+C during the gateway
    request of the second. *)
Lemma main_exits_witness :
  fst (main_in (fun pass =>
                  match pass with
                  | O => world_of (Responded full_answer)
                                  (Responded (clouds_answer (PInt 25) "25"))
                                  (Responded accepted)
                  | S _ => world_of (Threw KeyboardInterrupt)
                                    (Raised ReadTimeout) (Raised ReadTimeout)
                  end) settings 5) = Returned.
Proof.
  destruct (main_exits
              (fun pass =>
                 match pass with
                 | O => world_of (Responded full_answer)
                                 (Responded (clouds_answer (PInt 25) "25"))
                                 (Responded accepted)
                 | S _ => world_of (Threw KeyboardInterrupt)
                                   (Raised ReadTimeout) (Raised ReadTimeout)
                 end)
              settings 5%nat settings_configured)
    as (exit & trace & oks & Hrun & _ & Hcases).
  rewrite Hrun. cbn [fst].
  destruct Hcases as [(-> & _) | [(-> & _) | (e & -> & _)]];
    [reflexivity | reflexivity |].
  vm_compute in Hrun. discriminate Hrun.
Defined.

(** In every pass of a run, whatever the services answer from pass to
    pass, the calls are those to the gateway, then to the enrichment, then
    to the clock and the upload target, cut after the first, the second or
    the fourth: between one and three calls of [requests.get] (each of
    which may follow redirects), none made twice in a pass.  There are at
    most [iterations] passes, at most one sleep for each, and every sleep
    lasts 300 seconds: there is no backoff. *)
Theorem main_request_budget worlds cfg iterations :
  ~ unconfigured cfg ->
  let mgr := manager_of cfg in
  let trace := snd (main_in worlds cfg iterations) in
  (forall r cs ls,
     In (Cycle r cs ls) trace ->
     (cs = [gateway_call (ecowitt mgr)] \/
      cs = [gateway_call (ecowitt mgr); owm_call (cloud_provider mgr)] \/
      exists wd,
        cs = [gateway_call (ecowitt mgr); owm_call (cloud_provider mgr);
              UtcNow; upload_call (uploader mgr) wd]) /\
     (1 <= List.length (filter (fun c => is_request c = true) cs) <= 3)%nat) /\
  (List.length (trace_results trace) <= iterations)%nat /\
  (List.length (trace_sleeps trace) <= List.length (trace_results trace))%nat /\
  Forall (fun seconds => seconds = 300%Z) (trace_sleeps trace).
Proof.
  intros Hcfg. cbv zeta. unfold main_in.
  rewrite (configured_test cfg Hcfg). cbv zeta.
  destruct (main_loop_spec worlds (manager_of cfg) iterations 0%nat 0%nat
              (main_logger INFO MsgStarting []))
    as (e & ext & Hloop & Hcalls & Hsl & _ & oks & Hlen & He).
  rewrite Hloop.
  change (main_logger INFO MsgStarting []) with [Logged INFO MsgStarting].
  assert (Hs : trace_sleeps ([Logged INFO MsgStarting] ++ ext)
               = trace_sleeps ext) by (rewrite trace_sleeps_app; reflexivity).
  assert (Hr : trace_results ([Logged INFO MsgStarting] ++ ext)
               = trace_results ext)
    by (rewrite trace_results_app; reflexivity).
  assert (Hin : forall r cs ls,
            In (Cycle r cs ls) ext ->
            pass_calls (manager_of cfg) cs /\
            (1 <= List.length (filter (fun c => is_request c = true) cs)
             <= 3)%nat).
  { intros r cs ls H.
    split; [|apply (pass_calls_requests (manager_of cfg))];
      exact (Hcalls r cs ls H). }
  assert (Hcount : (List.length (trace_results ext) <= iterations)%nat /\
                   (List.length (trace_sleeps ext)
                    <= List.length (trace_results ext))%nat).
  { rewrite Hlen. destruct e as [|x].
    - destruct He as [[-> Hn] | (-> & Hn & _)];
        rewrite ?length_app, length_map; simpl; lia.
    - destruct He as (_ & -> & Hn & _).
      rewrite length_app, length_map. simpl. lia. }
  destruct e as [|x]; cbn [snd].
  - rewrite main_logger_INFO, trace_sleeps_app, trace_results_app, Hs, Hr.
    change (trace_sleeps [Logged INFO MsgShuttingDown]) with (@nil Z).
    change (trace_results [Logged INFO MsgShuttingDown])
      with (@nil (result bool)).
    rewrite !app_nil_r.
    split; [|split; [apply Hcount | split; [apply Hcount | exact Hsl]]].
    intros r cs ls H. apply in_app_iff in H as [[H|H]|[H|[]]];
      try discriminate. exact (Hin r cs ls H).
  - rewrite Hs, Hr.
    split; [|split; [apply Hcount | split; [apply Hcount | exact Hsl]]].
    intros r cs ls [H|H]; [discriminate | exact (Hin r cs ls H)].
Qed.

(** Three passes: all services answer in the first, the enrichment is
    down in the second, the gateway in the third. *)
Lemma main_request_budget_witness :
  Forall (fun seconds => seconds = 300%Z)
    (trace_sleeps
       (snd (main_in
               (fun pass =>
                  match pass with
                  | O => world_of (Responded full_answer)
                                  (Responded (clouds_answer (PInt 25) "25"))
                                  (Responded accepted)
                  | S O => world_of (Responded full_answer)
                                    (Raised ReadTimeout) (Responded accepted)
                  | S (S _) => world_of (Raised ConnectionError)
                                        (Raised ReadTimeout)
                                        (Raised ReadTimeout)
                  end) settings 3))).
Proof.
  destruct (main_request_budget
              (fun pass =>
                 match pass with
                 | O => world_of (Responded full_answer)
                                 (Responded (clouds_answer (PInt 25) "25"))
                                 (Responded accepted)
                 | S O => world_of (Responded full_answer)
                                   (Raised ReadTimeout) (Responded accepted)
                 | S (S _) => world_of (Raised ConnectionError)
                                       (Raised ReadTimeout)
                                       (Raised ReadTimeout)
                 end)
              settings 3%nat settings_configured) as (_ & _ & _ & H).
  exact H.
Defined.

Lemma cycle_dead_gateway W self e now :
  gateway_outcome W (ecowitt self) = Raised e ->
  exists s',
    collect_and_upload W self (blank now) = (Ok false, s') /\
    calls s' = [gateway_call (ecowitt self)].
Proof.
  intros Hout.
  destruct (cycle_stops_on_falsy W self (blank now) PNone
              (after_log (after_call (blank now) (gateway_call (ecowitt self)))
                         ERROR (MsgEcowittFailed e)))
    as [Hrun _]; [|reflexivity|].
  - rewrite get_local_data_run, Hout. reflexivity.
  - eexists. split; [exact Hrun | reflexivity].
Qed.

Lemma main_loop_dead_gateway W mgr e iterations :
  gateway_outcome W (ecowitt mgr) = Raised e ->
  forall pass now trace,
  exists ext,
    main_loop (fun _ => W) mgr pass iterations now trace =
      (Interrupted, (trace ++ ext)%list) /\
    trace_calls ext = repeat (gateway_call (ecowitt mgr)) iterations /\
    trace_results ext = repeat (Ok false) iterations.
Proof.
  intros Hout. induction iterations as [|n IH]; intros pass now trace.
  - exists []. rewrite app_nil_r. auto.
  - cbn [main_loop]. cbv zeta.
    destruct (cycle_dead_gateway W mgr e now Hout) as (s' & Hrun & Hcalls).
    rewrite Hrun, !main_logger_INFO.
    destruct (IH (S pass) (S (tick s'))
                ((((trace ++ [Logged INFO MsgCollecting]) ++
                   [Cycle (Ok false) (calls s') (log s')]) ++
                  [Logged INFO (MsgWaiting UPDATE_INTERVAL)]) ++
                 [Sleep UPDATE_INTERVAL])%list) as (ext & Hloop & Hc & Hr).
    exists ([Logged INFO MsgCollecting; Cycle (Ok false) (calls s') (log s');
             Logged INFO (MsgWaiting UPDATE_INTERVAL); Sleep UPDATE_INTERVAL]
            ++ ext)%list.
    split; [rewrite Hloop, <- !app_assoc; reflexivity|].
    rewrite trace_calls_app, trace_results_app, Hc, Hr.
    unfold trace_calls, trace_results. simpl. rewrite Hcalls.
    split; reflexivity.
Qed.

(** While the gateway cannot be reached, a run keeps going: every pass
    makes its one request to the gateway and returns False, nothing is
    asked of the enrichment or the upload service, and the run ends only
    with the interrupt. *)
Theorem main_survives_dead_gateway W cfg e iterations :
  ~ unconfigured cfg ->
  gateway_outcome W (ecowitt (manager_of cfg)) = Raised e ->
  fst (main W cfg iterations) = Returned /\
  trace_calls (snd (main W cfg iterations)) =
    repeat (gateway_call (ecowitt (manager_of cfg))) iterations /\
  trace_results (snd (main W cfg iterations)) = repeat (Ok false) iterations.
Proof.
  intros Hcfg Hout. unfold main, main_in. rewrite (configured_test cfg Hcfg).
  cbv zeta.
  destruct (main_loop_dead_gateway W (manager_of cfg) e iterations Hout
              0%nat 0%nat (main_logger INFO MsgStarting []))
    as (ext & Hloop & Hc & Hr).
  rewrite Hloop, !main_logger_INFO. cbn [fst snd].
  rewrite !trace_calls_app, !trace_results_app, Hc, Hr. simpl.
  rewrite !app_nil_r. auto.
Qed.

(** Four passes with a gateway that times out. *)
Lemma main_survives_dead_gateway_witness :
  trace_results
    (snd (main (world_of (Raised ReadTimeout)
                         (Responded (clouds_answer (PInt 25) "25"))
                         (Responded accepted)) settings 4))
  = [Ok false; Ok false; Ok false; Ok false].
Proof.
  destruct (main_survives_dead_gateway
              (world_of (Raised ReadTimeout)
                        (Responded (clouds_answer (PInt 25) "25"))
                        (Responded accepted))
              settings ReadTimeout 4%nat settings_configured eq_refl)
    as (_ & _ & H).
  exact H.
Defined.

(** An enrichment answer that is JSON but not an object ends the run in
    its first pass: the AttributeError leaves [main], which has made two
    requests, has not uploaded and has not slept. *)
Theorem main_dies_on_enrichment_shape W cfg iterations r raw r' data :
  ~ unconfigured cfg ->
  gateway_outcome W (ecowitt (manager_of cfg)) = Responded r ->
  request_fails (Responded r) = false ->
  json r = Some raw ->
  truthy raw = true ->
  fst (parse_data (ecowitt (manager_of cfg)) raw (blank 0)) <> Ok PNone ->
  owm_outcome W (cloud_provider (manager_of cfg)) = Responded r' ->
  request_fails (Responded r') = false ->
  json r' = Some data ->
  is_dict data = false ->
  fst (main W cfg (S iterations)) = Uncaught AttributeError /\
  trace_calls (snd (main W cfg (S iterations))) =
    [gateway_call (ecowitt (manager_of cfg));
     owm_call (cloud_provider (manager_of cfg))] /\
  trace_sleeps (snd (main W cfg (S iterations))) = [].
Proof.
  intros Hcfg Hgw Hst Hjson Hraw Hparse Howm Hst' Hjson' Hdata.
  unfold main, main_in. rewrite (configured_test cfg Hcfg). cbv zeta.
  set (mgr := manager_of cfg) in *.
  assert (Hrun : collect_and_upload W mgr (blank 0) =
                 (Raise AttributeError,
                  after_call
                    (after_log (after_call (blank 0)
                                  (gateway_call (ecowitt mgr)))
                               INFO MsgEcowittRetrieved)
                    (owm_call (cloud_provider mgr)))).
  { rewrite collect_and_upload_run, get_local_data_run, Hgw.
    unfold fetch_json. simpl in Hst. rewrite Hst, Hjson, Hraw.
    rewrite parse_data_run in Hparse.
    destruct (parse_fields raw) as [parsed|]; [|destruct Hparse; reflexivity].
    unfold enrich_and_upload. rewrite get_cloud_coverage_run, Howm.
    unfold fetch_json. simpl in Hst'. rewrite Hst', Hjson'.
    unfold clouds_all. destruct data; try reflexivity. discriminate. }
  cbn [main_loop]. cbv zeta. rewrite Hrun, !main_logger_INFO.
  cbn [fst snd]. split; [reflexivity|]. split; reflexivity.
Qed.

(** The enrichment answers with a JSON list. *)
Lemma main_dies_on_enrichment_shape_witness :
  fst (main (world_of (Responded full_answer)
                      (Responded (mk_Response 200 "[]" (Some (PList []))))
                      (Responded accepted)) settings 5)
  = Uncaught AttributeError.
Proof.
  destruct (main_dies_on_enrichment_shape
              (world_of (Responded full_answer)
                        (Responded (mk_Response 200 "[]" (Some (PList []))))
                        (Responded accepted))
              settings 4%nat full_answer (PDict full_payload)
              (mk_Response 200 "[]" (Some (PList []))) (PList [])
              settings_configured eq_refl eq_refl eq_refl eq_refl
              ltac:(discriminate) eq_refl eq_refl eq_refl eq_refl)
    as (H & _).
  exact H.
Defined.

(* ===================================================================== *)
(** * Properties of GPIO_Config_Menu.py *)
(* ===================================================================== *)

Import GPIOConfigMenu.

Lemma sort_pins_filter (states : gmap Z string) (pins inputs outputs : list Z) :
  (forall pin, pin ∈ pins -> is_Some (states !! pin)) ->
  sort_pins states pins inputs outputs =
  inr ((inputs ++ filter (fun pin => states !! pin = Some "input") pins)%list,
       (outputs ++ filter (fun pin => states !! pin = Some "output") pins)%list).
Proof.
  revert inputs outputs.
  induction pins as [|pin rest IH]; intros inputs outputs Hwf.
  - simpl. rewrite !app_nil_r. reflexivity.
  - cbn [sort_pins].
    destruct (Hwf pin (list_elem_of_here _ _)) as [state Hstate].
    rewrite Hstate.
    assert (Hrest : forall q, q ∈ rest -> is_Some (states !! q))
      by (intros q Hq; apply Hwf, list_elem_of_further, Hq).
    destruct (String.eqb_spec state "input") as [->|Hin].
    + rewrite (IH _ _ Hrest).
      rewrite (filter_cons_True _ pin rest) by exact Hstate.
      rewrite (filter_cons_False _ pin rest)
        by (rewrite Hstate; intros H; discriminate H).
      rewrite <- app_assoc. reflexivity.
    + destruct (String.eqb_spec state "output") as [->|Hout].
      * rewrite (IH _ _ Hrest).
        rewrite (filter_cons_False _ pin rest)
          by (rewrite Hstate; intros H; discriminate H).
        rewrite (filter_cons_True _ pin rest) by exact Hstate.
        rewrite <- app_assoc. reflexivity.
      * rewrite (IH _ _ Hrest).
        rewrite (filter_cons_False _ pin rest)
          by (rewrite Hstate; intros H; injection H as H; exact (Hin H)).
        rewrite (filter_cons_False _ pin rest)
          by (rewrite Hstate; intros H; injection H as H; exact (Hout H)).
        reflexivity.
Qed.

Lemma append_assoc (a b c : string) : (a ++ b) ++ c = a ++ (b ++ c).
Proof.
  induction a as [|ch a IH]; [reflexivity|].
  rewrite !append_cons, IH. reflexivity.
Qed.

Lemma append_empty_r (a : string) : a ++ "" = a.
Proof.
  induction a as [|ch a IH]; [reflexivity|].
  rewrite append_cons, IH. reflexivity.
Qed.

(** On a form in which every listed pin has a variable, [apply_config]
    raises nothing and reports exactly the pins whose variable holds
    "input" and those whose variable holds "output", each list in the order
    of the pin list: in the message box, a line for each list that is not
    empty, or the sentence that no pins are configured when both are; on
    standard output, the heading and the same lines. *)
Theorem apply_config_reports self :
  well_formed self ->
  let inputs := pins_in "input" self in
  let outputs := pins_in "output" self in
  apply_config self =
    inr ([ShowInfo "Configuration Applied"
            ("GPIO Configuration:" ++ newline ++ newline
             ++ (if nonempty inputs
                 then "Input Pins: " ++ repr_pins inputs ++ newline else "")
             ++ (if nonempty outputs
                 then "Output Pins: " ++ repr_pins outputs ++ newline else "")
             ++ (if negb (nonempty inputs) && negb (nonempty outputs)
                 then "No pins configured." else ""));
          Print "Configuration Applied:"]
         ++ (if nonempty inputs
             then [Print ("Input Pins: " ++ repr_pins inputs)] else [])
         ++ (if nonempty outputs
             then [Print ("Output Pins: " ++ repr_pins outputs)] else []))%list.
Proof.
  intros Hwf inputs outputs. unfold apply_config.
  rewrite (sort_pins_filter _ _ [] [] Hwf). cbn [app].
  fold (pins_in "input" self). fold (pins_in "output" self).
  fold inputs. fold outputs. cbv zeta.
  do 3 f_equal.
  destruct (nonempty inputs), (nonempty outputs); cbn [negb andb];
    rewrite ?append_assoc, ?append_empty_r; reflexivity.
Qed.

Lemma foldl_unused_lookup (pins : list Z) (states : gmap Z string) (pin : Z) :
  foldl (fun states pin => <[pin := "unused"]> states) states pins !! pin =
  if bool_decide (pin ∈ pins) then Some "unused" else states !! pin.
Proof.
  revert states. induction pins as [|p rest IH]; intros states.
  - reflexivity.
  - cbn [foldl]. rewrite IH.
    destruct (bool_decide (pin ∈ rest)) eqn:Hrest.
    + apply bool_decide_eq_true in Hrest.
      rewrite bool_decide_eq_true_2; [reflexivity|].
      apply list_elem_of_further, Hrest.
    + apply bool_decide_eq_false in Hrest.
      destruct (decide (pin = p)) as [->|Hne].
      * rewrite lookup_insert_eq.
        rewrite bool_decide_eq_true_2; [reflexivity | apply list_elem_of_here].
      * rewrite lookup_insert_ne by congruence.
        rewrite bool_decide_eq_false_2; [reflexivity|].
        rewrite elem_of_cons. intros [H|H]; [exact (Hne H) | exact (Hrest H)].
Qed.

Lemma init_well_formed : well_formed init.
Proof.
  intros pin Hpin. unfold init. cbn [gpio_states gpio_pins] in *.
  rewrite foldl_unused_lookup, bool_decide_eq_true_2 by exact Hpin.
  eexists. reflexivity.
Qed.

Lemma reset_pins_spec (pins : list Z) (states : gmap Z string) :
  (forall pin, pin ∈ pins -> is_Some (states !! pin)) ->
  exists states',
    reset_pins states pins = (states', None) /\
    forall pin,
      states' !! pin =
      if bool_decide (pin ∈ pins) then Some "unused" else states !! pin.
Proof.
  revert states. induction pins as [|p rest IH]; intros states Hwf.
  - exists states. split; reflexivity.
  - cbn [reset_pins].
    destruct (Hwf p (list_elem_of_here _ _)) as [state Hstate].
    rewrite Hstate.
    destruct (IH (<[p := "unused"]> states)) as (states' & Hrun & Hlook).
    { intros q Hq. destruct (decide (q = p)) as [->|Hne].
      - rewrite lookup_insert_eq. eexists. reflexivity.
      - rewrite lookup_insert_ne by congruence.
        apply Hwf, list_elem_of_further, Hq. }
    exists states'. split; [exact Hrun|].
    intros pin. rewrite Hlook.
    destruct (bool_decide (pin ∈ rest)) eqn:Hrest.
    + apply bool_decide_eq_true in Hrest.
      rewrite bool_decide_eq_true_2; [reflexivity|].
      apply list_elem_of_further, Hrest.
    + apply bool_decide_eq_false in Hrest.
      destruct (decide (pin = p)) as [->|Hne].
      * rewrite lookup_insert_eq.
        rewrite bool_decide_eq_true_2; [reflexivity | apply list_elem_of_here].
      * rewrite lookup_insert_ne by congruence.
        rewrite bool_decide_eq_false_2; [reflexivity|].
        rewrite elem_of_cons. intros [H|H]; [exact (Hne H) | exact (Hrest H)].
Qed.

Lemma pins_in_nil_of_unused (self : t) (state : string) :
  state <> "unused" ->
  (forall pin, pin ∈ gpio_pins self ->
     gpio_states self !! pin = Some "unused") ->
  pins_in state self = [].
Proof.
  intros Hne Hall. unfold pins_in.
  induction (gpio_pins self) as [|pin rest IH]; [reflexivity|].
  rewrite filter_cons_False.
  - apply IH. intros q Hq. apply Hall, list_elem_of_further, Hq.
  - rewrite (Hall pin (list_elem_of_here _ _)).
    intros H. injection H as H. exact (Hne (eq_sym H)).
Qed.

(** Whatever the pins were set to, after [reset_config] every listed pin
    is "unused", the pin list is the same, one message box was shown, and
    [apply_config] then reports that no pins are configured. *)
Theorem reset_config_then_apply self :
  well_formed self ->
  exists self',
    reset_config self =
      (self', inr [ShowInfo "Reset" "All GPIO pins reset to unused."]) /\
    gpio_pins self' = gpio_pins self /\
    (forall pin, pin ∈ gpio_pins self ->
       gpio_states self' !! pin = Some "unused") /\
    (forall pin, pin ∉ gpio_pins self ->
       gpio_states self' !! pin = gpio_states self !! pin) /\
    apply_config self' =
      inr [ShowInfo "Configuration Applied"
             ("GPIO Configuration:" ++ newline ++ newline
              ++ "No pins configured.");
           Print "Configuration Applied:"].
Proof.
  intros Hwf.
  destruct (reset_pins_spec (gpio_pins self) (gpio_states self) Hwf)
    as (states' & Hrun & Hlook).
  exists {| gpio_states := states'; gpio_pins := gpio_pins self |}.
  unfold reset_config. rewrite Hrun.
  split; [reflexivity|]. split; [reflexivity|].
  assert (Hall : forall pin, pin ∈ gpio_pins self ->
                   states' !! pin = Some "unused").
  { intros pin Hpin. rewrite Hlook, bool_decide_eq_true_2 by exact Hpin.
    reflexivity. }
  split; [exact Hall|]. split.
  { intros pin Hpin. cbn [gpio_states].
    rewrite Hlook, bool_decide_eq_false_2 by exact Hpin. reflexivity. }
  set (self' := {| gpio_states := states'; gpio_pins := gpio_pins self |}).
  assert (Hwf' : well_formed self').
  { intros pin Hpin. cbn [gpio_states gpio_pins self'] in *.
    rewrite (Hall pin Hpin). eexists. reflexivity. }
  unfold apply_config. rewrite (sort_pins_filter _ _ [] [] Hwf').
  cbn [app]. fold (pins_in "input" self'). fold (pins_in "output" self').
  rewrite (pins_in_nil_of_unused self' "input") by (discriminate || exact Hall).
  rewrite (pins_in_nil_of_unused self' "output")
    by (discriminate || exact Hall).
  reflexivity.
Qed.

(** A form on which two pins were set, then reset. *)
Lemma reset_config_then_apply_witness :
  exists self',
    reset_config (after [Click 5 Output; Click 4 Input]) =
      (self', inr [ShowInfo "Reset" "All GPIO pins reset to unused."]) /\
    gpio_states self' !! 5%Z = Some "unused".
Proof.
  assert (Hwf : well_formed (after [Click 5 Output; Click 4 Input])).
  { intros pin Hpin.
    assert (Hdom : forall q, q ∈ BCM_pins ->
              is_Some (gpio_states (after [Click 5 Output; Click 4 Input])
                         !! q)).
    { intros q Hq. unfold BCM_pins in Hq.
      repeat (apply elem_of_cons in Hq as [->|Hq];
              [eexists; vm_compute; reflexivity|]).
      apply elem_of_nil in Hq. destruct Hq. }
    apply Hdom. exact Hpin. }
  destruct (reset_config_then_apply _ Hwf) as (self' & Hrun & _ & Hall & _).
  exists self'. split; [exact Hrun|].
  apply Hall. vm_compute. do 3 right. left.
Defined.

(** The fresh form. *)
Lemma apply_config_reports_witness :
  apply_config init =
    inr [ShowInfo "Configuration Applied"
           ("GPIO Configuration:" ++ newline ++ newline
            ++ "No pins configured.");
         Print "Configuration Applied:"].
Proof.
  rewrite (apply_config_reports init init_well_formed). reflexivity.
Defined.

Lemma select_well_formed self pin c :
  well_formed self -> well_formed (select pin c self).
Proof.
  intros Hwf q Hq. unfold select in *.
  destruct (bool_decide (pin ∈ gpio_pins self)); [|apply Hwf, Hq].
  cbn [gpio_states gpio_pins] in *.
  destruct (decide (q = pin)) as [->|Hne].
  - rewrite lookup_insert_eq. eexists. reflexivity.
  - rewrite lookup_insert_ne by congruence. apply Hwf, Hq.
Qed.

Lemma select_pins self pin c : gpio_pins (select pin c self) = gpio_pins self.
Proof.
  unfold select. destruct (bool_decide (pin ∈ gpio_pins self)); reflexivity.
Qed.

Lemma step_keeps_form self a :
  well_formed self ->
  well_formed (fst (step self a)) /\
  gpio_pins (fst (step self a)) = gpio_pins self.
Proof.
  intros Hwf. destruct a as [pin c| |]; cbn [step fst].
  - split; [apply select_well_formed, Hwf | apply select_pins].
  - auto.
  - destruct (reset_pins_spec (gpio_pins self) (gpio_states self) Hwf)
      as (states' & Hrun & Hlook).
    unfold reset_config. rewrite Hrun. cbn [fst].
    split; [|reflexivity].
    intros q Hq. cbn [gpio_states gpio_pins] in *.
    rewrite Hlook, bool_decide_eq_true_2 by exact Hq.
    eexists. reflexivity.
Qed.

Lemma foldl_step_keeps_form (actions : list action) (self : t) :
  well_formed self ->
  well_formed (foldl (fun self a => fst (step self a)) self actions) /\
  gpio_pins (foldl (fun self a => fst (step self a)) self actions) =
    gpio_pins self.
Proof.
  revert self. induction actions as [|a rest IH]; intros self Hwf.
  - auto.
  - cbn [foldl]. destruct (step_keeps_form self a Hwf) as [Hwf' Hpins].
    destruct (IH _ Hwf') as [H1 H2]. split; [exact H1|].
    rewrite H2. exact Hpins.
Qed.

(** Whatever the user clicks, in any order, the form keeps a variable for
    each of its 26 pins, so neither [apply_config] nor [reset_config] can
    raise KeyError, and the pins it can report are those of the BCM list,
    between 2 and 27. *)
Theorem form_never_raises (actions : list action) :
  gpio_pins (after actions) = BCM_pins /\
  (exists shown, apply_config (after actions) = inr shown) /\
  (exists self' shown, reset_config (after actions) = (self', inr shown)) /\
  forall state pin, pin ∈ pins_in state (after actions) -> (2 <= pin <= 27)%Z.
Proof.
  destruct (foldl_step_keeps_form actions init init_well_formed)
    as [Hwf Hpins].
  fold (after actions) in Hwf, Hpins.
  split; [exact Hpins|]. split; [|split].
  - unfold apply_config. rewrite (sort_pins_filter _ _ [] [] Hwf).
    eexists. reflexivity.
  - destruct (reset_pins_spec _ _ Hwf) as (states' & Hrun & _).
    unfold reset_config. rewrite Hrun. eexists _, _. reflexivity.
  - intros state pin. unfold pins_in.
    rewrite list_elem_of_filter, Hpins. intros [_ Hpin].
    unfold BCM_pins in Hpin.
    repeat (apply elem_of_cons in Hpin as [->|Hpin]; [lia|]).
    apply elem_of_nil in Hpin. destruct Hpin.
Qed.

(* ===================================================================== *)
(** * Properties of GPIO_Blink_Light.py *)
(* ===================================================================== *)

Lemma levels_at_sleeps_body (rest : list Blink.op)
  (levels : gmap Z Blink.pin_level) :
  Blink.levels_at_sleeps (Blink.loop_body ++ rest) levels =
  (<[Blink.LED_PIN2 := Blink.HIGH]> (<[Blink.LED_PIN := Blink.HIGH]> levels))
  :: (<[Blink.LED_PIN2 := Blink.LOW]>
        (<[Blink.LED_PIN := Blink.LOW]>
           (<[Blink.LED_PIN2 := Blink.HIGH]>
              (<[Blink.LED_PIN := Blink.HIGH]> levels))))
  :: Blink.levels_at_sleeps rest
       (<[Blink.LED_PIN2 := Blink.LOW]>
          (<[Blink.LED_PIN := Blink.LOW]>
             (<[Blink.LED_PIN2 := Blink.HIGH]>
                (<[Blink.LED_PIN := Blink.HIGH]> levels)))).
Proof. reflexivity. Qed.

Import Blink.

Lemma leds_agree_after_pair (levels : gmap Z pin_level) (v : pin_level) :
  leds_agree (<[LED_PIN2 := v]> (<[LED_PIN := v]> levels)).
Proof.
  unfold leds_agree, LED_PIN, LED_PIN2.
  rewrite lookup_insert_ne by discriminate.
  rewrite !lookup_insert_eq. split; [eexists; reflexivity | reflexivity].
Qed.

Lemma passes_leds_agree (passes : nat) (rest : list op) :
  (forall levels, Forall leds_agree (levels_at_sleeps rest levels)) ->
  forall levels,
    Forall leds_agree (levels_at_sleeps (passes_ops passes ++ rest) levels).
Proof.
  intros Hrest. induction passes as [|n IH]; intros levels.
  - apply Hrest.
  - cbn [passes_ops]. rewrite <- app_assoc, levels_at_sleeps_body.
    constructor; [apply leds_agree_after_pair|].
    constructor; [apply leds_agree_after_pair|]. apply IH.
Qed.

Lemma tail_leds_agree (position : nat) (levels : gmap Z pin_level) :
  Forall leds_agree
    (levels_at_sleeps (take position loop_body ++ handler_ops ++ finally_ops)
                      levels).
Proof.
  do 8 (destruct position as [|position];
        [cbn;
         repeat (apply Forall_cons_2; [apply leds_agree_after_pair|]);
         apply Forall_nil_2|]).
  cbn. rewrite take_nil. cbn.
  repeat (apply Forall_cons_2; [apply leds_agree_after_pair|]).
  apply Forall_nil_2.
Qed.

(** Whenever the script sleeps, both LEDs have been driven and stand at
    the same level, wherever in the loop the interrupt arrives: the two
    lights are never seen in different states for a second. *)
Theorem leds_in_step (passes position : nat) :
  Forall leds_agree (levels_at_sleeps (run passes position) ∅).
Proof.
  unfold run.
  change (levels_at_sleeps
            (setup_ops ++ [banner] ++ passes_ops passes ++
             take position loop_body ++ handler_ops ++ finally_ops) ∅)
    with (levels_at_sleeps
            (passes_ops passes ++
             take position loop_body ++ handler_ops ++ finally_ops) ∅).
  apply passes_leds_agree. intros levels. apply tail_leds_agree.
Qed.

Lemma printed_app (a b : list op) :
  printed (a ++ b) = (printed a ++ printed b)%list.
Proof. apply flat_map_app. Qed.

Lemma sleeps_app (a b : list op) :
  sleeps (a ++ b) = (sleeps a ++ sleeps b)%list.
Proof. apply flat_map_app. Qed.

Lemma printed_passes (passes : nat) :
  printed (passes_ops passes) = on_off passes.
Proof.
  induction passes as [|n IH]; [reflexivity|].
  cbn [passes_ops]. rewrite printed_app, IH. reflexivity.
Qed.

Lemma sleeps_passes (passes : nat) :
  sleeps (passes_ops passes) = repeat 1%Z (2 * passes).
Proof.
  induction passes as [|n IH]; [reflexivity|].
  cbn [passes_ops]. rewrite sleeps_app, IH.
  replace (2 * S n)%nat with (S (S (2 * n))) by lia. reflexivity.
Qed.

(** What a run prints and how long it sleeps, when Ctrl+C arrives after
    [passes] whole passes and [position] statements of the next one.  It
    prints the banner; LED ON then LED OFF for each whole pass; LED ON
    when the third statement of the cut pass was reached and LED OFF when
    its seventh was; then the two closing lines.  It sleeps twice in each
    whole pass, once more when the fourth statement of the cut pass was
    reached and once more when its eighth was; every sleep lasts one
    second. *)
Theorem blink_prints_and_sleeps (passes position : nat) :
  (position <= 8)%nat ->
  printed (run passes position) =
    (["Blinking LED on GPIO07. Press Ctrl+C to stop..."]
     ++ on_off passes
     ++ (if (3 <=? position)%nat then ["LED ON"] else [])
     ++ (if (7 <=? position)%nat then ["LED OFF"] else [])
     ++ [String "010"%char "Program stopped by user"; "GPIO cleaned up"])%list
  /\
  sleeps (run passes position) =
    repeat 1%Z (2 * passes + (if (4 <=? position)%nat then 1 else 0)
                + (if (8 <=? position)%nat then 1 else 0)).
Proof.
  intros Hpos. unfold run.
  rewrite !printed_app, !sleeps_app, printed_passes, sleeps_passes.
  do 9 (destruct position as [|position];
        [split; [reflexivity|];
         rewrite <- Nat.add_assoc, repeat_app;
         cbn; rewrite ?app_nil_r; reflexivity|]).
  lia.
Qed.

(** A run interrupted in the middle of its third pass, with the LEDs on. *)
Lemma blink_prints_and_sleeps_witness :
  printed (run 2 4) =
    ["Blinking LED on GPIO07. Press Ctrl+C to stop...";
     "LED ON"; "LED OFF"; "LED ON"; "LED OFF"; "LED ON";
     String "010"%char "Program stopped by user"; "GPIO cleaned up"] /\
  sleeps (run 2 4) = [1; 1; 1; 1; 1]%Z.
Proof.
  destruct (blink_prints_and_sleeps 2 4 ltac:(lia)) as [Hp Hs].
  rewrite Hp, Hs. split; reflexivity.
Defined.

Lemma gpio_calls_app (a b : list op) :
  gpio_calls (a ++ b) = (gpio_calls a ++ gpio_calls b)%list.
Proof. apply filter_app. Qed.

Lemma written_passes (passes : nat) :
  Forall (fun pin => pin = LED_PIN \/ pin = LED_PIN2)
         (flat_map written_pin (passes_ops passes)).
Proof.
  induction passes as [|n IH]; [constructor|].
  cbn [passes_ops]. rewrite flat_map_app. apply Forall_app. split.
  - cbn. repeat (apply Forall_cons_2; [auto|]). apply Forall_nil_2.
  - exact IH.
Qed.

Lemma written_take (position : nat) :
  Forall (fun pin => pin = LED_PIN \/ pin = LED_PIN2)
         (flat_map written_pin (take position loop_body)).
Proof.
  do 8 (destruct position as [|position];
        [cbn; repeat (apply Forall_cons_2; [auto|]); apply Forall_nil_2|]).
  cbn. rewrite take_nil. cbn.
  repeat (apply Forall_cons_2; [auto|]). apply Forall_nil_2.
Qed.

(** Wherever the interrupt arrives in the loop, a run starts with the four
    configuration calls, so both LED pins are outputs before anything is
    written; it writes to no pin but the two LED pins; and its last call
    into RPi.GPIO is the one [cleanup], followed only by a print. *)
Theorem blink_gpio_discipline (passes position : nat) :
  take 4 (run passes position) = setup_ops /\
  Forall (fun pin => pin = LED_PIN \/ pin = LED_PIN2)
         (flat_map written_pin (run passes position)) /\
  last (gpio_calls (run passes position)) = Some Cleanup /\
  List.length (filter (fun o => is_cleanup o = true) (run passes position))
    = 1%nat /\
  exists before,
    run passes position =
      (before ++ [Cleanup; PrintLine "GPIO cleaned up"])%list.
Proof.
  split; [reflexivity|]. split; [|split; [|split]].
  - unfold run. rewrite !flat_map_app.
    apply Forall_app; split; [cbn; constructor|].
    apply Forall_app; split; [cbn; constructor|].
    apply Forall_app; split; [apply written_passes|].
    apply Forall_app; split; [apply written_take|].
    apply Forall_app; split; cbn; constructor.
  - unfold run. rewrite !gpio_calls_app.
    change (gpio_calls finally_ops) with [Cleanup].
    change (gpio_calls handler_ops) with (@nil op).
    rewrite app_nil_l, !app_assoc. apply last_snoc.
  - unfold run. rewrite !filter_app, !length_app.
    assert (Hp : forall n,
              List.length (filter (fun o => is_cleanup o = true)
                                  (passes_ops n)) = 0%nat).
    { induction n as [|n IH]; [reflexivity|].
      cbn [passes_ops]. rewrite filter_app, length_app, IH. reflexivity. }
    assert (Ht : List.length (filter (fun o => is_cleanup o = true)
                                     (take position loop_body)) = 0%nat).
    { do 8 (destruct position as [|position]; [reflexivity|]).
      cbn. rewrite take_nil. reflexivity. }
    rewrite Hp, Ht. reflexivity.
  - exists (setup_ops ++ [banner] ++ passes_ops passes ++
            take position loop_body ++ handler_ops)%list.
    unfold run, finally_ops. rewrite <- !app_assoc. reflexivity.
Qed.
